(** * Business analytics dashboard: the ETL orchestrator and its adapters

    A shallow embedding of [etl/extract.py] and [etl/pipeline.py].

    Python values are modelled as follows.
    - An exception is a class name, its message ([str(e)]) and an optional
      [__cause__]; a call either returns ([Ok]) or raises ([Raise]).
    - A pandas DataFrame is its column index and its rows.
    - A Python [dict] with string keys is an insertion-ordered association
      list ([list(d.keys())] is observable in the pipeline statistics).
    - The file system seen through [pathlib] is a finite map from paths to
      nodes; a file node holds what [pd.read_csv] yields for its content.
    - [logger] calls and [print] produce no value used by the program and
      are left out, except where they mark a stage boundary in the trace. *)

From Stdlib Require Import ZArith Lia Ascii.
From stdpp Require Import gmap strings list fin_maps.

Set Warnings "-clear-no-such-hyp".

Open Scope string_scope.
Open Scope list_scope.

(* ===================================================================== *)
(** ** Exceptions and results *)
(* ===================================================================== *)

#[warnings="-register-all"] Inductive exn : Type :=
| Exn (cls : string) (msg : string) (cause : option exn).

Definition exn_class (e : exn) : string := match e with Exn c _ _ => c end.
Definition exn_cause (e : exn) : option exn := match e with Exn _ _ c => c end.

(** [str(e)] *)
Definition str (e : exn) : string := match e with Exn _ m _ => m end.

Inductive Res (A : Type) : Type :=
| Ok (a : A)
| Raise (e : exn).
Arguments Ok {A} a.
Arguments Raise {A} e.

Definition is_ok {A} (r : Res A) : bool :=
  match r with Ok _ => true | Raise _ => false end.

Definition res_bind {A B} (r : Res A) (k : A -> Res B) : Res B :=
  match r with
  | Ok a => k a
  | Raise e => Raise e
  end.

(* ===================================================================== *)
(** ** DataFrames and dicts *)
(* ===================================================================== *)

Record DataFrame : Type := mkDF {
  columns : list string;
  rows : list (list string)
}.

(** [len(df)] *)
Definition len (df : DataFrame) : nat := length (rows df).

(** [df.empty]: some axis has length zero *)
Definition df_empty (df : DataFrame) : bool :=
  match columns df, rows df with
  | [], _ => true
  | _, [] => true
  | _, _ => false
  end.

(** Position of a column label in the column index. *)
Fixpoint col_index (c : string) (cs : list string) : option nat :=
  match cs with
  | [] => None
  | c' :: cs' => if String.eqb c c' then Some 0 else S <$> col_index c cs'
  end.

(** [row[c]] for a row of [df]; [None] when the column is absent. *)
Definition cell (df : DataFrame) (r : list string) (c : string) : option string :=
  i ← col_index c (columns df); r !! i.

Section Dict.
Context {V : Type}.

Definition dict := list (string * V).

(** [d.get(k)] *)
Fixpoint dict_get (k : string) (d : list (string * V)) : option V :=
  match d with
  | [] => None
  | (k', v) :: d' => if String.eqb k k' then Some v else dict_get k d'
  end.

(** [k in d] *)
Definition dict_in (k : string) (d : list (string * V)) : bool :=
  match dict_get k d with Some _ => true | None => false end.

(** [d[k] = v]: overwrite in place, or append a new key *)
Fixpoint dict_set (k : string) (v : V) (d : list (string * V)) : list (string * V) :=
  match d with
  | [] => [(k, v)]
  | (k', v') :: d' =>
      if String.eqb k k' then (k', v) :: d' else (k', v') :: dict_set k v d'
  end.

(** [list(d.keys())], [d.values()] *)
Definition dict_keys (d : list (string * V)) : list string := d.*1.
Definition dict_values (d : list (string * V)) : list V := d.*2.

(** [d.update(d2)] *)
Definition dict_update (d d2 : list (string * V)) : list (string * V) :=
  fold_left (fun acc kv => dict_set kv.1 kv.2 acc) d2 d.
End Dict.
Arguments dict V : clear implicits.

(** [sum(...)] over naturals *)
Definition sum (l : list nat) : nat := foldr Nat.add 0 l.

(** [sum(len(df) for df in d.values())] *)
Definition total_len (d : dict DataFrame) : nat := sum (len <$> dict_values d).

(* ===================================================================== *)
(** ** etl/extract.py *)
(* ===================================================================== *)

Inductive node : Type :=
| Dir
| File (parsed : Res DataFrame).

(** The paths that exist, each the text of a [Path] in normal form:
    names separated by single [/], none of them [.] or [..].  The
    working directory and the root exist and are not listed.
    [refused q]: the [OSError] with which the system declines to create
    the directory [q] in an existing directory (no permission, a
    read-only or full file system, ...), if it does. *)
Record FS : Type := mkFS {
  nodes : gmap string node;
  refused : string -> option exn
}.

(** [Path(p) / name] *)
Definition path_join (p name : string) : string := p +:+ "/" +:+ name.

(** [Path.exists()] *)
Definition path_exists (fs : FS) (p : string) : bool :=
  match nodes fs !! p with Some _ => true | None => false end.

(** [repr(s)] of a text of code points below 256: the quote is the
    double one when [s] holds a single quote and no double one; the
    quote and the backslash are escaped, tab, newline and return are
    written [\t], [\n], [\r], and what is not printable as [\xNN]. *)
Definition double_quote : ascii := Ascii.ascii_of_nat 34.

Fixpoint has_char (c : ascii) (s : string) : bool :=
  match s with
  | EmptyString => false
  | String a s' => Ascii.eqb a c || has_char c s'
  end.

Definition hex_digit (n : nat) : ascii :=
  match n with
  | 0 => "0" | 1 => "1" | 2 => "2" | 3 => "3" | 4 => "4" | 5 => "5" | 6 => "6"
  | 7 => "7" | 8 => "8" | 9 => "9" | 10 => "a" | 11 => "b" | 12 => "c" | 13 => "d"
  | 14 => "e" | _ => "f"
  end%char.

Definition is_printable (c : ascii) : bool :=
  let n := Ascii.nat_of_ascii c in
  (Nat.leb 32 n && Nat.leb n 126) ||
  (Nat.leb 161 n && negb (Nat.eqb n 173)).

Definition escape_char (quote c : ascii) : string :=
  let n := Ascii.nat_of_ascii c in
  if Ascii.eqb c quote || Ascii.eqb c "\"%char then String "\" (String c EmptyString)
  else if Nat.eqb n 9 then "\t"
  else if Nat.eqb n 10 then "\n"
  else if Nat.eqb n 13 then "\r"
  else if is_printable c then String c EmptyString
  else String "\" (String "x" (String (hex_digit (n / 16))
                                 (String (hex_digit (n mod 16)) EmptyString))).

Fixpoint escape (quote : ascii) (s : string) : string :=
  match s with
  | EmptyString => EmptyString
  | String c s' => escape_char quote c +:+ escape quote s'
  end.

Definition repr (s : string) : string :=
  let quote :=
    if has_char "'" s && negb (has_char double_quote s) then double_quote else "'"%char in
  String quote (escape quote s +:+ String quote EmptyString).

(** [str(e)] of an [OSError] raised for a file name:
    [[Errno 17] File exists: 'data/raw'], with the texts of Linux. *)
Definition oserror (class errno strerror filename : string) : exn :=
  Exn class ("[Errno " +:+ errno +:+ "] " +:+ strerror +:+ ": " +:+ repr filename) None.

(** The texts before each [/] of a path, longest first. *)
Fixpoint cuts (s : string) : list string :=
  match s with
  | EmptyString => []
  | String c s' =>
      (String c <$> cuts s') ++ (if Ascii.eqb c "/" then [EmptyString] else [])
  end.

(** [Path(p).parents] without the anchor: the directories above [p],
    nearest first. *)
Definition ancestors (p : string) : list string :=
  List.filter (fun d => negb (String.eqb d EmptyString)) (cuts p).

(** The directories [mkdir(parents=True)] needs, from the top down to
    [p] itself. *)
Definition path_chain (p : string) : list string := reverse (ancestors p) ++ [p].

(** What [Path.mkdir(parents=True, exist_ok=True)] does to the
    directories [qs] on the way to [p]: one that exists is left alone;
    one that is missing is made by [os.mkdir] unless the system refuses,
    and the refusal is raised as it is, what was made above it staying;
    a regular file in the way is an error of the first [os.mkdir(p)]:
    [NotADirectoryError] when it is above [p], [FileExistsError], which
    [exist_ok] lets pass for a directory only, when it is [p]. *)
Fixpoint make_dirs (p : string) (qs : list string) (fs : FS) : Res unit * FS :=
  match qs with
  | [] => (Ok tt, fs)
  | q :: qs' =>
      match nodes fs !! q with
      | Some Dir => make_dirs p qs' fs
      | Some (File _) =>
          if String.eqb q p
          then (Raise (oserror "FileExistsError" "17" "File exists" p), fs)
          else (Raise (oserror "NotADirectoryError" "20" "Not a directory" p), fs)
      | None =>
          match refused fs q with
          | Some e => (Raise e, fs)
          | None => make_dirs p qs' (mkFS (<[q := Dir]> (nodes fs)) (refused fs))
          end
      end
  end.

(** [Path.mkdir(parents=True, exist_ok=True)].  For a path of one name
    there is nothing above to make, and it is [mkdir(exist_ok=True)]. *)
Definition mkdir (p : string) (fs : FS) : Res unit * FS :=
  make_dirs p (path_chain p) fs.

(** [pd.read_csv(filepath)] *)
Definition read_csv (fs : FS) (p : string) : Res DataFrame :=
  match nodes fs !! p with
  | Some (File r) => r
  | Some Dir => Raise (Exn "IsADirectoryError" p None)
  | None => Raise (Exn "FileNotFoundError" p None)
  end.

Record DataExtractor : Type := mkExtractor { data_path : string }.

(** [DataExtractor.__init__] *)
Definition DataExtractor_init (p : string) (fs : FS) : Res DataExtractor * FS :=
  match mkdir p fs with
  | (Ok _, fs') => (Ok (mkExtractor p), fs')
  | (Raise e, fs') => (Raise e, fs')
  end.

(** [DataExtractor.extract_csv]: both handlers log and re-raise. *)
Definition extract_csv (self : DataExtractor) (filename : string) (fs : FS)
  : Res DataFrame :=
  let filepath := path_join (data_path self) filename in
  match read_csv fs filepath with
  | Ok df => Ok df
  | Raise e => Raise e
  end.

(** [DataExtractor.validate_data].  The frame is threaded through the
    call so that its state after the call can be compared with the one
    before; [None] is Python's [None]. *)
Definition validate_data (df : option DataFrame)
    (required_columns : option (list string)) : Res bool * option DataFrame :=
  match df with
  | None => (Ok false, df)
  | Some d =>
      if df_empty d then (Ok false, df)
      else
        match required_columns with
        | None | Some [] => (Ok true, df)
        | Some cs =>
            let missing_columns : gset string :=
              list_to_set cs ∖ list_to_set (columns d) in
            if bool_decide (missing_columns ≠ ∅) then (Ok false, df)
            else (Ok true, df)
        end
  end.

(** [extract_sales_data].  The handler around the four steps logs and
    re-raises. *)
Definition extract_sales_data (p : string) (fs : FS)
  : Res (dict DataFrame) * FS :=
  match DataExtractor_init p fs with
  | (Raise e, fs') => (Raise e, fs')
  | (Ok extractor, fs') =>
      let body : Res (dict DataFrame) :=
        let data := [] in
        res_bind
          (if path_exists fs' (path_join (data_path extractor) "sales_transactions.csv")
           then res_bind (extract_csv extractor "sales_transactions.csv" fs')
                  (fun df => Ok (dict_set "sales" df data))
           else Ok data) (fun data =>
        res_bind
          (if path_exists fs' (path_join (data_path extractor) "customers.csv")
           then res_bind (extract_csv extractor "customers.csv" fs')
                  (fun df => Ok (dict_set "customers" df data))
           else Ok data) (fun data =>
        res_bind
          (if path_exists fs' (path_join (data_path extractor) "products.csv")
           then res_bind (extract_csv extractor "products.csv" fs')
                  (fun df => Ok (dict_set "products" df data))
           else Ok data) (fun data =>
        res_bind
          (if path_exists fs' (path_join (data_path extractor) "sales_reps.csv")
           then res_bind (extract_csv extractor "sales_reps.csv" fs')
                  (fun df => Ok (dict_set "sales_reps" df data))
           else Ok data) (fun data =>
        Ok data)))) in
      match body with
      | Ok data => (Ok data, fs')
      | Raise e => (Raise e, fs')
      end
  end.

(** The dataset names and the file each is read from. *)
Definition known_datasets : list string :=
  ["sales"; "customers"; "products"; "sales_reps"].

Definition source_file (name : string) : option string :=
  if String.eqb name "sales" then Some "sales_transactions.csv"
  else if String.eqb name "customers" then Some "customers.csv"
  else if String.eqb name "products" then Some "products.csv"
  else if String.eqb name "sales_reps" then Some "sales_reps.csv"
  else None.

(* ===================================================================== *)
(** ** etl/pipeline.py: state, audit trail and collaborators *)
(* ===================================================================== *)

(** One entry of [self.stats].  [names] is the entry's ['datasets'] key
    (extract, transform) or ['tables'] key (load); [None] while the key is
    absent. *)
Record StageInfo : Type := mkStage {
  status : string;
  records : nat;
  names : option (list string)
}.

Record Stats : Type := mkStats {
  extract : StageInfo;
  transform : StageInfo;
  load : StageInfo
}.

Record ETLPipeline : Type := mkPipeline {
  pipeline_name : string;
  start_time : option Z;
  stats : Stats
}.

(** [ETLPipeline.__init__] *)
Definition ETLPipeline_init (name : string) : ETLPipeline :=
  mkPipeline name None
    (mkStats (mkStage "Not Started" 0 None)
             (mkStage "Not Started" 0 None)
             (mkStage "Not Started" 0 None)).

(** The arguments of one [log_etl_audit] call and the duration the
    recorder derives from them.  An omitted keyword argument is [None]. *)
Record AuditRecord : Type := mkAudit {
  a_pipeline : string;
  a_stage : string;
  a_status : string;
  a_records : option nat;
  a_error : option string;
  a_start : option Z;
  a_duration : option Z
}.

(** What a run does that can be observed from outside, in order. *)
Inductive Event : Type :=
| EvAudit (a : AuditRecord) (now : Z)   (* [log_etl_audit] called at [now] *)
| EvEnter (stage : string)              (* a stage method is entered *)
| EvTransform (name : string)           (* a transformation adapter is called *)
| EvLoadDims (names : list string)      (* [load_dimension_tables] is called *)
| EvLoadDimsDone                        (* ... and has returned *)
| EvLoadFact                            (* [load_fact_sales] is called *)
| EvStageFailed (stage : string) (e : exn). (* a stage's [except] clause runs
                                              ([logger.error("... failed: ...")]) *)

(** The collaborators of the orchestrator that are outside
    [etl/pipeline.py] and [etl/extract.py]: the wall clock, the
    transformation adapters ([etl/transform.py]), the loaders
    ([etl/load.py]) acting on a warehouse of type [Wh], and whether the
    audit recorder lets an exception escape for a given record. *)
Record Env (Wh : Type) : Type := mkEnv {
  clock : nat -> Z;
  transform_sales_data : DataFrame -> Res DataFrame;
  transform_customer_data : DataFrame -> Res DataFrame;
  transform_product_data : DataFrame -> Res DataFrame;
  transform_sales_rep_data : DataFrame -> Res DataFrame;
  load_dimension_tables : dict DataFrame -> Wh -> Res (dict nat) * Wh;
  load_fact_sales : DataFrame -> Wh -> Res nat * Wh;
  audit_fault : AuditRecord -> option exn
}.
Arguments clock {Wh} _ _.
Arguments transform_sales_data {Wh} _ _.
Arguments transform_customer_data {Wh} _ _.
Arguments transform_product_data {Wh} _ _.
Arguments transform_sales_rep_data {Wh} _ _.
Arguments load_dimension_tables {Wh} _ _ _.
Arguments load_fact_sales {Wh} _ _ _.
Arguments audit_fault {Wh} _ _.

(** Everything outside the pipeline object that a run reads or writes;
    [ticks] counts the readings of [datetime.now()] so far. *)
Record World (Wh : Type) : Type := mkWorld {
  fs : FS;
  wh : Wh;
  ticks : nat
}.
Arguments mkWorld {Wh} _ _ _.
Arguments fs {Wh} _.
Arguments wh {Wh} _.
Arguments ticks {Wh} _.

(** Outcome of a computation: its result, the pipeline object and the
    world it leaves behind, and the events it emitted. *)
Record Out (Wh A : Type) : Type := mkOut {
  result : Res A;
  self_of : ETLPipeline;
  world_of : World Wh;
  events : list Event
}.
Arguments mkOut {Wh A} _ _ _ _.
Arguments result {Wh A} _.
Arguments self_of {Wh A} _.
Arguments world_of {Wh A} _.
Arguments events {Wh A} _.

Definition M (Wh A : Type) : Type := ETLPipeline -> World Wh -> Out Wh A.

Definition with_stats (f : Stats -> Stats) (self : ETLPipeline) : ETLPipeline :=
  mkPipeline (pipeline_name self) (start_time self) (f (stats self)).

Section Monad.
Context {Wh : Type}.

Definition ret {A} (a : A) : M Wh A := fun self w => mkOut (Ok a) self w [].

Definition raise {A} (e : exn) : M Wh A := fun self w => mkOut (Raise e) self w [].

Definition bind {A B} (m : M Wh A) (k : A -> M Wh B) : M Wh B :=
  fun self w =>
    match m self w with
    | mkOut (Ok a) self1 w1 evs1 =>
        match k a self1 w1 with
        | mkOut r self2 w2 evs2 => mkOut r self2 w2 (evs1 ++ evs2)
        end
    | mkOut (Raise e) self1 w1 evs1 => mkOut (Raise e) self1 w1 evs1
    end.

(** [try: m  except Exception as e: h e] *)
Definition try_except {A} (m : M Wh A) (h : exn -> M Wh A) : M Wh A :=
  fun self w =>
    match m self w with
    | mkOut (Ok a) self1 w1 evs1 => mkOut (Ok a) self1 w1 evs1
    | mkOut (Raise e) self1 w1 evs1 =>
        match h e self1 w1 with
        | mkOut r self2 w2 evs2 => mkOut r self2 w2 (evs1 ++ evs2)
        end
    end.

Definition emit (ev : Event) : M Wh unit := fun self w => mkOut (Ok tt) self w [ev].

Definition get_self : M Wh ETLPipeline := fun self w => mkOut (Ok self) self w [].

Definition set_start_time (t : Z) : M Wh unit :=
  fun self w =>
    mkOut (Ok tt) (mkPipeline (pipeline_name self) (Some t) (stats self)) w [].

Definition set_stats (f : Stats -> Stats) : M Wh unit :=
  fun self w => mkOut (Ok tt) (with_stats f self) w [].

(** A call that acts on the file system / on the warehouse. *)
Definition on_fs {A} (f : FS -> Res A * FS) : M Wh A :=
  fun self w =>
    let '(r, fs') := f (fs w) in mkOut r self (mkWorld fs' (wh w) (ticks w)) [].

Definition on_wh {A} (f : Wh -> Res A * Wh) : M Wh A :=
  fun self w =>
    let '(r, wh') := f (wh w) in mkOut r self (mkWorld (fs w) wh' (ticks w)) [].

Definition lift {A} (r : Res A) : M Wh A := fun self w => mkOut r self w [].
End Monad.

#[global] Instance M_ret {Wh} : MRet (M Wh) := @ret Wh.
#[global] Instance M_bind {Wh} : MBind (M Wh) := fun A B k m => bind m k.

(** Writing one field of one entry of [self.stats]. *)
Definition with_status (s : string) (i : StageInfo) : StageInfo :=
  mkStage s (records i) (names i).
Definition set_extract (f : StageInfo -> StageInfo) (st : Stats) : Stats :=
  mkStats (f (extract st)) (transform st) (load st).
Definition set_transform (f : StageInfo -> StageInfo) (st : Stats) : Stats :=
  mkStats (extract st) (f (transform st)) (load st).
Definition set_load (f : StageInfo -> StageInfo) (st : Stats) : Stats :=
  mkStats (extract st) (transform st) (f (load st)).

Section Pipeline.
Context {Wh : Type} (E : Env Wh).

(** [datetime.now()] *)
Definition now : M Wh Z :=
  fun self w =>
    mkOut (Ok (clock E (ticks w))) self (mkWorld (fs w) (wh w) (S (ticks w))) [].

(** Modelled from the spec: [DataLoader.log_etl_audit] of [etl/load.py],
    which is not among the sources.  The recorder appends one record
    per call, with the duration computed as now − start_time at the
    moment of the record.  By its contract it never fails the caller;
    [audit_fault] describes the recorder breaking that contract. *)
Definition log_etl_audit (name stage st : string)
    (records_processed : option nat) (error_message : option string)
    (start : option Z) : M Wh unit :=
  t ← now;
  let a := mkAudit name stage st records_processed error_message start
             ((fun t0 => t - t0)%Z <$> start) in
  emit (EvAudit a t);;
  match audit_fault E a with
  | Some e => raise e
  | None => mret tt
  end.

(** [ETLPipeline._extract] *)
Definition _extract (p : string) : M Wh (dict DataFrame) :=
  emit (EvEnter "Extract");;
  try_except
    (raw_data ← on_fs (extract_sales_data p);
     let total_records := total_len raw_data in
     set_stats (set_extract (fun _ =>
       mkStage "Success" total_records (Some (dict_keys raw_data))));;
     mret raw_data)
    (fun e =>
       set_stats (set_extract (with_status "Failed"));;
       emit (EvStageFailed "Extract" e);;
       raise e).

(** One [if name in raw_data: transformed_data[name] = f(raw_data[name])]
    step of [_transform]. *)
Definition transform_step (name : string) (f : DataFrame -> Res DataFrame)
    (raw_data transformed_data : dict DataFrame) : M Wh (dict DataFrame) :=
  match dict_get name raw_data with
  | Some df =>
      emit (EvTransform name);;
      df' ← lift (f df);
      mret (dict_set name df' transformed_data)
  | None => mret transformed_data
  end.

(** [ETLPipeline._transform] *)
Definition _transform (raw_data : dict DataFrame) : M Wh (dict DataFrame) :=
  emit (EvEnter "Transform");;
  try_except
    (let transformed_data := [] in
     transformed_data ←
       transform_step "sales" (transform_sales_data E) raw_data transformed_data;
     transformed_data ←
       transform_step "customers" (transform_customer_data E) raw_data transformed_data;
     transformed_data ←
       transform_step "products" (transform_product_data E) raw_data transformed_data;
     transformed_data ←
       transform_step "sales_reps" (transform_sales_rep_data E) raw_data transformed_data;
     let total_records := total_len transformed_data in
     set_stats (set_transform (fun _ =>
       mkStage "Success" total_records (Some (dict_keys transformed_data))));;
     mret transformed_data)
    (fun e =>
       set_stats (set_transform (with_status "Failed"));;
       emit (EvStageFailed "Transform" e);;
       raise e).

Definition dimension_names : list string := ["customers"; "products"; "sales_reps"].

(** [{k: v for k, v in transformed_data.items() if k in [...]}] *)
Definition dimension_part (transformed_data : dict DataFrame) : dict DataFrame :=
  filter (fun kv => kv.1 ∈ dimension_names) transformed_data.

(** [ETLPipeline._load] *)
Definition _load (transformed_data : dict DataFrame) : M Wh (dict nat) :=
  emit (EvEnter "Load");;
  try_except
    (let load_results := [] in
     let dimension_data := dimension_part transformed_data in
     load_results ←
       match dimension_data with
       | [] => mret load_results
       | _ =>
           emit (EvLoadDims (dict_keys dimension_data));;
           dim_results ← on_wh (load_dimension_tables E dimension_data);
           emit EvLoadDimsDone;;
           mret (dict_update load_results dim_results)
       end;
     load_results ←
       match dict_get "sales" transformed_data with
       | Some df =>
           emit EvLoadFact;;
           sales_loaded ← on_wh (load_fact_sales E df);
           mret (dict_set "sales" sales_loaded load_results)
       | None => mret load_results
       end;
     let total_records := sum (dict_values load_results) in
     set_stats (set_load (fun _ =>
       mkStage "Success" total_records (Some (dict_keys load_results))));;
     mret load_results)
    (fun e =>
       set_stats (set_load (with_status "Failed"));;
       emit (EvStageFailed "Load" e);;
       raise e).

(** [ETLPipeline._print_summary]: reads the clock and prints. *)
Definition _print_summary : M Wh unit := now;; mret tt.

(** The stage the handler of [run] blames. *)
Definition failed_stage (st : Stats) : string :=
  if negb (String.eqb (status (extract st)) "Success") then "Extract"
  else if negb (String.eqb (status (transform st)) "Success") then "Transform"
  else "Load".

(** [ETLPipeline.run] *)
Definition run (p : string) : M Wh Stats :=
  t0 ← now;
  set_start_time t0;;
  self ← get_self;
  try_except
    (log_etl_audit (pipeline_name self) "Extract" "Started" None None (start_time self);;
     raw_data ← _extract p;
     log_etl_audit (pipeline_name self) "Extract" "Success"
       (Some (total_len raw_data)) None (start_time self);;
     transform_start ← now;
     log_etl_audit (pipeline_name self) "Transform" "Started" None None
       (Some transform_start);;
     transformed_data ← _transform raw_data;
     log_etl_audit (pipeline_name self) "Transform" "Success"
       (Some (total_len transformed_data)) None (Some transform_start);;
     load_start ← now;
     log_etl_audit (pipeline_name self) "Load" "Started" None None (Some load_start);;
     load_results ← _load transformed_data;
     log_etl_audit (pipeline_name self) "Load" "Success"
       (Some (sum (dict_values load_results))) None (Some load_start);;
     now;;
     _print_summary;;
     self ← get_self;
     mret (stats self))
    (fun e =>
       self ← get_self;
       log_etl_audit (pipeline_name self) (failed_stage (stats self)) "Failed"
         None (Some (str e)) (start_time self);;
       raise e).

(** [run_pipeline]: a fresh pipeline object for every call. *)
Definition run_pipeline (p : string) (w : World Wh) : Out Wh Stats :=
  run p (ETLPipeline_init "sales_analytics_etl") w.
End Pipeline.

(** The audit records among the events of a run, in order. *)
Definition audit_records (evs : list Event) : list AuditRecord :=
  omap (fun ev => match ev with EvAudit a _ => Some a | _ => None end) evs.

(* ===================================================================== *)
(** ** The warehouse loaders *)
(* ===================================================================== *)

(** Modelled from the spec: [etl/load.py] is not among the sources.  The
    loaders below follow the specification of the Dimension
    Resolver/Loader and of the Fact Loader; tables are lists of rows, and
    the uniqueness of natural keys is a property to be proved, not one
    built into the types. *)
Module Warehouse.

Record DimRow : Type := mkDim {
  d_table : string;       (* dimension name *)
  d_key : string;         (* natural key *)
  d_id : nat;             (* surrogate key *)
  d_attrs : list string   (* business attributes *)
}.

Record FactRow : Type := mkFact {
  f_order : string;       (* natural identity: the order number *)
  f_customer : nat;
  f_product : nat;
  f_rep : nat;
  f_date : nat;
  f_row : list string     (* measures *)
}.

Record t : Type := mk {
  dim_rows : list DimRow;
  next_id : nat;
  fact_rows : list FactRow
}.

Definition is_dim (table key : string) (r : DimRow) : bool :=
  String.eqb (d_table r) table && String.eqb (d_key r) key.

Fixpoint find_dim (table key : string) (rs : list DimRow) : option DimRow :=
  match rs with
  | [] => None
  | r :: rs' => if is_dim table key r then Some r else find_dim table key rs'
  end.

(** Modelled from the spec: [lookupSurrogate(table, naturalKey)] of the
    warehouse interface, absent from the sources. *)
Definition lookupSurrogate (w : t) (table key : string) : option nat :=
  d_id <$> find_dim table key (dim_rows w).

Fixpoint overwrite (table key : string) (attrs : list string)
    (rs : list DimRow) : list DimRow :=
  match rs with
  | [] => []
  | r :: rs' =>
      if is_dim table key r then mkDim table key (d_id r) attrs :: rs'
      else r :: overwrite table key attrs rs'
  end.

(** Modelled from the spec: [upsertByNaturalKey], absent from the
    sources.  If the natural key is found the mutable attributes are
    overwritten and the surrogate key is kept; if not, a row is
    inserted under a newly assigned surrogate key. *)
Definition upsertByNaturalKey (table key : string) (attrs : list string)
    (w : t) : nat * t :=
  match lookupSurrogate w table key with
  | Some i => (i, mk (overwrite table key attrs (dim_rows w)) (next_id w) (fact_rows w))
  | None =>
      (next_id w,
       mk (dim_rows w ++ [mkDim table key (next_id w) attrs]) (S (next_id w))
          (fact_rows w))
  end.

(** Modelled from the spec: the natural-key column of each dimension
    dataset (the spec names [customer_code]; the other two follow it). *)
Definition natural_key_column (name : string) : option string :=
  if String.eqb name "customers" then Some "customer_code"
  else if String.eqb name "products" then Some "product_code"
  else if String.eqb name "sales_reps" then Some "rep_code"
  else None.

(** Modelled from the spec: the rows of a dimension dataset tagged with
    their natural keys; [None] when the dataset has no natural-key column
    or a row has no value in it. *)
Definition keyed_rows (name : string) (df : DataFrame)
  : option (list (string * list string)) :=
  col ← natural_key_column name;
  mapM (fun r => k ← cell df r col; Some (k, r)) (rows df).

Definition load_dimension (name : string) (krs : list (string * list string))
    (w : t) : t :=
  foldl (fun w kr => (upsertByNaturalKey name kr.1 kr.2 w).2) w krs.

(** The datasets of one call, each with its keyed rows. *)
Definition batches_of (dimension_data : dict DataFrame)
  : option (list (string * list (string * list string))) :=
  mapM (fun kv => krs ← keyed_rows kv.1 kv.2; Some (kv.1, krs)) dimension_data.

Definition load_batches (batches : list (string * list (string * list string)))
    (w : t) : t :=
  foldl (fun w b => load_dimension b.1 b.2 w) w batches.

(** Modelled from the spec: [load_dimension_tables] of [etl/load.py],
    absent from the sources.  Every row of every dimension dataset is
    upserted by natural key; the count per dimension covers inserted
    and updated rows; a constraint violation fails with a load error
    and commits nothing. *)
Definition load_dimension_tables (dimension_data : dict DataFrame) (w : t)
  : Res (dict nat) * t :=
  match batches_of dimension_data with
  | None => (Raise (Exn "LoadError" "natural key missing" None), w)
  | Some batches =>
      (Ok ((fun b => (b.1, length b.2)) <$> batches), load_batches batches w)
  end.

(** Modelled from the spec: resolution of the dimension references of
    one fact row (customer, product, rep, transaction date) through the
    surrogate keys held by the warehouse; [None] is a resolution miss. *)
Definition resolve (df : DataFrame) (w : t) (r : list string) : option FactRow :=
  o ← cell df r "order_number";
  c ← cell df r "customer_code" ≫= lookupSurrogate w "customers";
  p ← cell df r "product_code" ≫= lookupSurrogate w "products";
  s ← cell df r "rep_code" ≫= lookupSurrogate w "sales_reps";
  d ← cell df r "order_date" ≫= lookupSurrogate w "date";
  Some (mkFact o c p s d r).

Fixpoint upsert_fact (f : FactRow) (fs : list FactRow) : list FactRow :=
  match fs with
  | [] => [f]
  | g :: fs' =>
      if String.eqb (f_order g) (f_order f) then f :: fs'
      else g :: upsert_fact f fs'
  end.

Definition write_facts (resolved : list FactRow) (fs : list FactRow)
  : list FactRow :=
  foldl (fun fs f => upsert_fact f fs) fs resolved.

(** Modelled from the spec: [load_fact_sales] of [etl/load.py], absent
    from the sources.  A row all of whose references resolve is written
    with insert-or-update semantics on the order number; a row with a
    resolution miss is skipped. *)
Definition load_fact_sales (df : DataFrame) (w : t) : Res nat * t :=
  let resolved := omap (resolve df w) (rows df) in
  (Ok (length resolved),
   mk (dim_rows w) (next_id w) (write_facts resolved (fact_rows w))).

(** The surrogate-key assignments and the order numbers on file. *)
Definition assignments (w : t) : list (string * string * nat) :=
  (fun r => (d_table r, d_key r, d_id r)) <$> dim_rows w.
Definition orders (w : t) : list string := f_order <$> fact_rows w.

(** A natural key that already has a surrogate key. *)
Definition known (w : t) (table key : string) : Prop :=
  is_Some (lookupSurrogate w table key).

(** The fact load of [_load]: only when sales data is present. *)
Definition facts_step (transformed_data : dict DataFrame) (w : t) : t :=
  match dict_get "sales" transformed_data with
  | Some df => (load_fact_sales df w).2
  | None => w
  end.

(** Number of fact rows on file for an order number. *)
Definition fact_count (o : string) (w : t) : nat :=
  length (filter (fun f => f_order f = o) (fact_rows w)).

(** The pipeline's collaborators with these loaders plugged in. *)
Definition env (clk : nat -> Z) (ts tc tp tr : DataFrame -> Res DataFrame)
    (fault : AuditRecord -> option exn) : Env t :=
  mkEnv t clk ts tc tp tr load_dimension_tables load_fact_sales fault.
End Warehouse.

(* ===================================================================== *)
(** ** Auxiliary notions used in the statements *)
(* ===================================================================== *)

(** The data directory can be used and every dataset file found in it
    can be parsed. *)
Definition readable (p : string) (fs : FS) : Prop :=
  is_ok (mkdir p fs).1 = true ∧
  ∀ k file, source_file k = Some file →
    path_exists fs (path_join p file) = true →
    is_ok (read_csv fs (path_join p file)) = true.

(** What [_transform] computes, apart from its bookkeeping: the result
    and the adapters it calls, in order. *)
Definition transform_one (name : string) (f : DataFrame -> Res DataFrame)
    (raw_data : dict DataFrame) (acc : Res (dict DataFrame) * list string)
  : Res (dict DataFrame) * list string :=
  match acc with
  | (Ok td, called) =>
      match dict_get name raw_data with
      | Some df =>
          (res_bind (f df) (fun df' => Ok (dict_set name df' td)), called ++ [name])
      | None => acc
      end
  | (Raise e, called) => acc
  end.

Definition transform_all {Wh} (E : Env Wh) (raw_data : dict DataFrame)
  : Res (dict DataFrame) * list string :=
  transform_one "sales_reps" (transform_sales_rep_data E) raw_data
    (transform_one "products" (transform_product_data E) raw_data
      (transform_one "customers" (transform_customer_data E) raw_data
        (transform_one "sales" (transform_sales_data E) raw_data (Ok [], [])))).

(** What [_load] computes, apart from its bookkeeping: the result, the
    warehouse it leaves and the loader calls it makes. *)
Definition load_dims_part {Wh} (E : Env Wh) (transformed_data : dict DataFrame) (w : Wh)
  : Res (dict nat) * Wh * list Event :=
  match dimension_part transformed_data with
  | [] => (Ok [], w, [])
  | dimension_data =>
      match load_dimension_tables E dimension_data w with
      | (Ok dim_results, w') =>
          (Ok (dict_update [] dim_results), w',
           [EvLoadDims (dict_keys dimension_data); EvLoadDimsDone])
      | (Raise e, w') => (Raise e, w', [EvLoadDims (dict_keys dimension_data)])
      end
  end.

Definition load_all {Wh} (E : Env Wh) (transformed_data : dict DataFrame) (w : Wh)
  : Res (dict nat) * Wh * list Event :=
  match load_dims_part E transformed_data w with
  | (Raise e, w1, evs) => (Raise e, w1, evs)
  | (Ok load_results, w1, evs) =>
      match dict_get "sales" transformed_data with
      | Some df =>
          match load_fact_sales E df w1 with
          | (Ok n, w2) => (Ok (dict_set "sales" n load_results), w2, evs ++ [EvLoadFact])
          | (Raise e, w2) => (Raise e, w2, evs ++ [EvLoadFact])
          end
      | None => (Ok load_results, w1, evs)
      end
  end.

(** Classification of events and of audit records. *)
Definition is_call (ev : Event) : bool :=
  match ev with
  | EvTransform _ | EvLoadDims _ | EvLoadDimsDone | EvLoadFact => true
  | _ => false
  end.

Definition is_failed (a : AuditRecord) : bool := String.eqb (a_status a) "Failed".
Definition is_started (a : AuditRecord) : bool := String.eqb (a_status a) "Started".
Definition is_terminal (a : AuditRecord) : bool :=
  String.eqb (a_status a) "Success" || String.eqb (a_status a) "Failed".
Definition of_stage (stage : string) (a : AuditRecord) : bool :=
  String.eqb (a_stage a) stage.

(** The records of a run for one stage: the Started ones, the terminal ones. *)
Definition started_records (stage : string) (evs : list Event) : list AuditRecord :=
  List.filter (fun a => of_stage stage a && is_started a) (audit_records evs).
Definition terminal_records (stage : string) (evs : list Event) : list AuditRecord :=
  List.filter (fun a => of_stage stage a && is_terminal a) (audit_records evs).
Definition stage_records (stage : string) (evs : list Event) : list AuditRecord :=
  List.filter (of_stage stage) (audit_records evs).
Definition failed_records (evs : list Event) : list AuditRecord :=
  List.filter is_failed (audit_records evs).

(** A stage is entered when its method is called. *)
Definition entered (stage : string) (evs : list Event) : Prop := EvEnter stage ∈ evs.

(** The recorder keeps its contract: no exception escapes it. *)
Definition audit_reliable {Wh} (E : Env Wh) : Prop := ∀ a, audit_fault E a = None.

(** Audit completeness of a trace: every stage entered has at least one
    Started record and exactly one terminal record, and a stage never
    entered has no record. *)
Definition audit_complete (evs : list Event) : Prop :=
  ∀ stage,
    (entered stage evs →
       (1 ≤ length (started_records stage evs))%nat ∧
       length (terminal_records stage evs) = 1%nat) ∧
    (¬ entered stage evs → stage_records stage evs = []).

(** Every terminal record carries the start time of the Started record of
    its stage, and its duration is the time of the call minus that. *)
Definition terminal_times_match (evs : list Event) : Prop :=
  ∀ s a t,
    s ∈ audit_records evs → EvAudit a t ∈ evs →
    is_started s = true → is_terminal a = true → a_stage s = a_stage a →
    a_start a = a_start s ∧
    a_duration a = (fun t0 => (t - t0)%Z) <$> a_start s.

(** A run fails with the error value of the specification whenever a
    stage raises: an exception of class [StageFailure] that holds the
    stage's exception as its cause. *)
Definition fails_with_StageFailure {Wh A} (o : Out Wh A) : Prop :=
  ∀ stage cause,
    EvStageFailed stage cause ∈ events o →
    ∃ e, result o = Raise e ∧ exn_class e = "StageFailure" ∧ exn_cause e = Some cause.

(** A run over a missing data directory fails with [SourceUnavailable]. *)
Definition missing_source_fails {Wh A} (p : string) (w : World Wh) (o : Out Wh A) : Prop :=
  nodes (fs w) !! p = None →
  ∃ e, result o = Raise e ∧ exn_class e = "SourceUnavailable".

(** [x] occurs before [y] in a trace. *)
Definition precedes (x y : Event) (evs : list Event) : Prop :=
  ∃ i j : nat, (i < j)%nat ∧ evs !! i = Some x ∧ evs !! j = Some y.

(** The adapters and loaders return normally on the datasets at hand. *)
Definition adapters_accept {Wh} (E : Env Wh) (raw_data : dict DataFrame) : Prop :=
  (∀ df, dict_get "sales" raw_data = Some df → is_ok (transform_sales_data E df) = true) ∧
  (∀ df, dict_get "customers" raw_data = Some df → is_ok (transform_customer_data E df) = true) ∧
  (∀ df, dict_get "products" raw_data = Some df → is_ok (transform_product_data E df) = true) ∧
  (∀ df, dict_get "sales_reps" raw_data = Some df → is_ok (transform_sales_rep_data E df) = true).

Definition loaders_accept {Wh} (E : Env Wh) (transformed_data : dict DataFrame) : Prop :=
  (∀ w, is_ok (load_dimension_tables E (dimension_part transformed_data) w).1 = true) ∧
  (∀ df w, dict_get "sales" transformed_data = Some df →
           is_ok (load_fact_sales E df w).1 = true).

(** The names among [known] that are keys of [d], in the order of [known]. *)
Definition present {V} (known : list string) (d : dict V) : list string :=
  List.filter (fun k => dict_in k d) known.

(* ===================================================================== *)
(** ** Sample data *)
(* ===================================================================== *)

Module Sample.
Definition customers_df : DataFrame :=
  mkDF ["customer_code"; "name"] [["C1"; "Ada"]; ["C2"; "Bob"]].
Definition products_df : DataFrame :=
  mkDF ["product_code"; "title"] [["P1"; "Lamp"]].
Definition reps_df : DataFrame :=
  mkDF ["rep_code"; "name"] [["R1"; "Eve"]].
(** [ORD001] on file twice, [ORD003] refers to an unknown customer. *)
Definition sales_df : DataFrame :=
  mkDF ["order_number"; "customer_code"; "product_code"; "rep_code"; "order_date"; "quantity"]
    [["ORD001"; "C1"; "P1"; "R1"; "2024-01-15"; "2"];
     ["ORD002"; "C2"; "P1"; "R1"; "2024-01-16"; "3"];
     ["ORD001"; "C1"; "P1"; "R1"; "2024-01-15"; "2"];
     ["ORD003"; "C9"; "P1"; "R1"; "2024-01-16"; "1"]].

(** Nothing refuses the creation of a directory; or permission is
    denied everywhere. *)
Definition allowed (q : string) : option exn := None.
Definition denied (q : string) : option exn :=
  Some (oserror "PermissionError" "13" "Permission denied" q).

Definition no_files (creat : bool) : FS := mkFS ∅ (if creat then allowed else denied).

Definition all_files : FS :=
  mkFS (<["data" := Dir]>
        (<["data/raw" := Dir]>
        (<["data/raw/sales_transactions.csv" := File (Ok sales_df)]>
        (<["data/raw/customers.csv" := File (Ok customers_df)]>
        (<["data/raw/products.csv" := File (Ok products_df)]>
        (<["data/raw/sales_reps.csv" := File (Ok reps_df)]> ∅))))))
       allowed.

(** Only customers and sales are on file. *)
Definition some_files : FS :=
  mkFS (<["data" := Dir]>
        (<["data/raw" := Dir]>
        (<["data/raw/sales_transactions.csv" := File (Ok sales_df)]>
        (<["data/raw/customers.csv" := File (Ok customers_df)]> ∅))))
       allowed.

(** The data path names a regular file. *)
Definition path_is_file : FS :=
  mkFS (<["data" := Dir]> (<["data/raw" := File (Ok customers_df)]> ∅)) allowed.

Definition clk (k : nat) : Z := 10 * Z.of_nat k.

Definition keep (df : DataFrame) : Res DataFrame := Ok df.
Definition reject (df : DataFrame) : Res DataFrame :=
  Raise (Exn "ValidationError" "required fields absent" None).

Definition no_fault (a : AuditRecord) : option exn := None.
(** The recorder lets an exception escape on the Extract/Success record. *)
Definition fault_on_extract_success (a : AuditRecord) : option exn :=
  if String.eqb (a_stage a) "Extract" && String.eqb (a_status a) "Success"
  then Some (Exn "OperationalError" "audit sink unreachable" None)
  else None.

Definition env_ok : Env Warehouse.t :=
  Warehouse.env clk keep keep keep keep no_fault.
Definition env_bad_customers : Env Warehouse.t :=
  Warehouse.env clk keep reject keep keep no_fault.
Definition env_audit_fault : Env Warehouse.t :=
  Warehouse.env clk keep keep keep keep fault_on_extract_success.

(** A warehouse whose date dimension holds two days and nothing else. *)
Definition wh0 : Warehouse.t :=
  Warehouse.mk
    [Warehouse.mkDim "date" "2024-01-15" 1 []; Warehouse.mkDim "date" "2024-01-16" 2 []]
    3 [].

Definition world (f : FS) : World Warehouse.t := mkWorld f wh0 0.

(** A pipeline object as [run_pipeline] creates it. *)
Definition fresh : ETLPipeline := ETLPipeline_init "sales_analytics_etl".

(** Extraction results: a partial one and a full one. *)
Definition partial : dict DataFrame := [("sales", sales_df); ("customers", customers_df)].
Definition transformed : dict DataFrame :=
  [("sales", sales_df); ("customers", customers_df); ("products", products_df);
   ("sales_reps", reps_df)].
End Sample.

(* ===================================================================== *)
(** ** The command-line entry points *)
(* ===================================================================== *)

(** [open(dir/name, 'a')], which [logging.FileHandler(...)] performs when
    it is built: the directory must exist; a missing file is created
    empty (what [pd.read_csv] says of an empty file is an error). *)
Definition open_append (dir name : string) (fs : FS) : Res unit * FS :=
  match nodes fs !! dir with
  | Some Dir =>
      match nodes fs !! path_join dir name with
      | Some Dir => (Raise (Exn "IsADirectoryError" (path_join dir name) None), fs)
      | Some (File _) => (Ok tt, fs)
      | None =>
          (Ok tt,
           mkFS (<[path_join dir name :=
                     File (Raise (Exn "EmptyDataError" "No columns to parse from file" None))]>
                   (nodes fs))
                (refused fs))
      end
  | Some (File _) => (Raise (Exn "NotADirectoryError" (path_join dir name) None), fs)
  | None => (Raise (Exn "FileNotFoundError" (path_join dir name) None), fs)
  end.

(** The module body of [etl/pipeline.py], run when the module is imported
    or started as a script: [logging.basicConfig(handlers=
    [logging.FileHandler('logs/etl_pipeline.log'), ...])].  The handler
    is built, and the file opened, whether or not the root logger is
    configured already.  The imports above it are taken to have no
    effect on the files. *)
Definition pipeline_module_body (fs : FS) : Res unit * FS :=
  open_append "logs" "etl_pipeline.log" fs.

(** How a process ends: its exit status and what it did. *)
Record Ended (Wh : Type) : Type := mkEnded {
  exit_status : nat;
  ended_world : World Wh;
  ended_events : list Event
}.
Arguments mkEnded {Wh} _ _ _.
Arguments exit_status {Wh} _.
Arguments ended_world {Wh} _.
Arguments ended_events {Wh} _.

Definition with_fs {Wh} (f : FS) (w : World Wh) : World Wh := mkWorld f (wh w) (ticks w).
Definition tick {Wh} (w : World Wh) : World Wh := mkWorld (fs w) (wh w) (S (ticks w)).

Section EntryPoints.
Context {Wh : Type} (E : Env Wh).

(** [python etl/pipeline.py --data-path p --pipeline-name name]: the module
    body, then the [__main__] block.  An exception that nothing catches
    ends the process with status 1. *)
Definition pipeline_main (name p : string) (w : World Wh) : Ended Wh :=
  match pipeline_module_body (fs w) with
  | (Raise e, fs1) => mkEnded 1 (with_fs fs1 w) []
  | (Ok _, fs1) =>
      (* Path('logs').mkdir(exist_ok=True) *)
      match mkdir "logs" fs1 with
      | (Raise e, fs2) => mkEnded 1 (with_fs fs2 w) []
      | (Ok _, fs2) =>
          match run E p (ETLPipeline_init name) (with_fs fs2 w) with
          | mkOut (Ok stats) _ w' evs => mkEnded 0 w' evs
          | mkOut (Raise e) _ w' evs => mkEnded 1 w' evs   (* sys.exit(1) *)
          end
      end
  end.

(** [run_scheduled_pipeline] of [scripts/run_pipeline.py]: the clock is
    read for the banner and for the closing line. *)
Definition run_scheduled_pipeline (p : string) (w : World Wh)
  : option Stats * World Wh * list Event :=
  match run_pipeline E p (tick w) with
  | mkOut (Ok stats) _ w' evs => (Some stats, tick w', evs)
  | mkOut (Raise e) _ w' evs => (None, tick w', evs)
  end.

(** [python scripts/run_pipeline.py [--data-path p] [--use-raw]] with
    [--schedule none]: the import of [etl.pipeline], then the [__main__]
    block. *)
Definition runner_main (use_raw : bool) (data_path_arg : string) (w : World Wh)
  : Ended Wh :=
  match pipeline_module_body (fs w) with
  | (Raise e, fs1) => mkEnded 1 (with_fs fs1 w) []
  | (Ok _, fs1) =>
      let p := if use_raw then "data/raw" else data_path_arg in
      match mkdir "logs" fs1 with
      | (Raise e, fs2) => mkEnded 1 (with_fs fs2 w) []
      | (Ok _, fs2) =>
          let '(_, w', evs) := run_scheduled_pipeline p (with_fs fs2 w) in
          mkEnded 0 w' evs
      end
  end.
End EntryPoints.
(* ===================================================================== *)
(** ** scripts/setup_database.py *)
(* ===================================================================== *)

(** Text is a sequence of code points below 256. *)

(** [str.isspace] on one character: tab to carriage return, the four
    separators 0x1c-0x1f, space, NEL and the no-break space. *)
Definition is_space (c : Ascii.ascii) : bool :=
  let n := Ascii.nat_of_ascii c in
  (Nat.leb 9 n && Nat.leb n 13) || (Nat.leb 28 n && Nat.leb n 32) ||
  Nat.eqb n 133 || Nat.eqb n 160.

(** [s.lstrip()], [s.rstrip()], [s.strip()] *)
Fixpoint lstrip (s : string) : string :=
  match s with
  | EmptyString => EmptyString
  | String c s' => if is_space c then lstrip s' else s
  end.

Fixpoint rstrip (s : string) : string :=
  match s with
  | EmptyString => EmptyString
  | String c s' =>
      match rstrip s' with
      | EmptyString => if is_space c then EmptyString else String c EmptyString
      | r => String c r
      end
  end.

Definition strip (s : string) : string := rstrip (lstrip s).

(** [s.split(sep)] for a separator of one character: one piece more than
    there are separators, never an empty list. *)
Fixpoint split (sep : Ascii.ascii) (s : string) : list string :=
  match s with
  | EmptyString => [EmptyString]
  | String c s' =>
      if Ascii.eqb c sep then EmptyString :: split sep s'
      else
        match split sep s' with
        | [] => [String c EmptyString]
        | piece :: pieces => String c piece :: pieces
        end
  end.

(** [s.startswith(p)] *)
Definition startswith (p s : string) : bool := String.prefix p s.

(** [needle in s] *)
Fixpoint contains (needle s : string) : bool :=
  String.prefix needle s ||
  match s with
  | EmptyString => false
  | String _ s' => contains needle s'
  end.

(** The MySQL server, the files and the console, as [execute_sql_file]
    uses them.  A connection is a handle; [connect],
    [connection.cursor()], [open], [cursor.close()],
    [connection.close()] and the [print] of the closing line may raise;
    for [cursor.execute] and [connection.commit], [Some msg] is a
    [mysql.connector.Error] raised with message [msg]. *)
Record Sql (DB : Type) : Type := mkSql {
  sql_connect : DB -> Res nat * DB;
  sql_cursor : nat -> DB -> option exn;
  sql_execute : nat -> string -> DB -> option string * DB;
  sql_commit : nat -> DB -> option string * DB;
  sql_cursor_close : nat -> DB -> option exn;
  sql_close : nat -> DB -> option exn * DB;
  read_text : string -> Res string;
  print_executed : string -> option exn
}.
Arguments sql_connect {DB} _ _.
Arguments sql_cursor {DB} _ _ _.
Arguments sql_execute {DB} _ _ _ _.
Arguments sql_commit {DB} _ _ _.
Arguments sql_cursor_close {DB} _ _ _.
Arguments sql_close {DB} _ _ _.
Arguments read_text {DB} _ _.
Arguments print_executed {DB} _ _.

Inductive SqlEvent : Type :=
| SqlConnected (c : nat)
| SqlExecuted (c : nat) (statement : string)
| SqlCommitted (c : nat)               (* [connection.commit()] is called *)
| SqlWarned (msg : string)            (* [print(f"Warning: {e}")] *)
| SqlClosed (c : nat)                  (* [connection.close()] is called *)
| SqlDone (filepath : string).        (* [print(f"✓ Executed: {filepath}")] *)

Section ExecuteSqlFile.
Context {DB : Type} (S : Sql DB).

(** The handler of the loop: an "already exists" error is silent. *)
Definition warn (msg : string) : list SqlEvent :=
  if negb (contains "already exists" msg) then [SqlWarned msg] else [].

(** One turn of the loop of [execute_sql_file]. *)
Definition execute_statement (c : nat) (segment : string) (db : DB)
  : DB * list SqlEvent :=
  let statement := strip segment in
  match statement with
  | EmptyString => (db, [])
  | _ =>
      if negb (startswith "--" statement) then
        match sql_execute S c statement db with
        | (Some msg, db1) => (db1, SqlExecuted c statement :: warn msg)
        | (None, db1) =>
            match sql_commit S c db1 with
            | (Some msg, db2) =>
                (db2, SqlExecuted c statement :: SqlCommitted c :: warn msg)
            | (None, db2) => (db2, [SqlExecuted c statement; SqlCommitted c])
            end
        end
      else (db, [])
  end.

Fixpoint execute_statements (c : nat) (segments : list string) (db : DB)
  : DB * list SqlEvent :=
  match segments with
  | [] => (db, [])
  | segment :: rest =>
      let '(db1, evs1) := execute_statement c segment db in
      let '(db2, evs2) := execute_statements c rest db1 in
      (db2, evs1 ++ evs2)
  end.

(** [execute_sql_file(filepath, connection)]; [connection = None] is the
    default argument. *)
Definition execute_sql_file (filepath : string) (connection : option nat) (db : DB)
  : Res unit * DB * list SqlEvent :=
  let '(opened, close_conn, db0, evs0) :=
    match connection with
    | Some c => (Ok c, false, db, [])
    | None =>
        match sql_connect S db with
        | (Ok c, db') => (Ok c, true, db', [SqlConnected c])
        | (Raise e, db') => (Raise e, true, db', [])
        end
    end in
  match opened with
  | Raise e => (Raise e, db0, evs0)
  | Ok c =>
      match sql_cursor S c db0 with
      | Some e => (Raise e, db0, evs0)
      | None =>
          match read_text S filepath with
          | Raise e => (Raise e, db0, evs0)
          | Ok sql_content =>
              let statements := split ";"%char sql_content in
              let '(db1, evs1) := execute_statements c statements db0 in
              (* cursor.close() *)
              match sql_cursor_close S c db1 with
              | Some e => (Raise e, db1, evs0 ++ evs1)
              | None =>
                  let '(closed, db2, evs2) :=
                    if close_conn
                    then let '(r, db2) := sql_close S c db1 in (r, db2, [SqlClosed c])
                    else (None, db1, []) in
                  match closed with
                  | Some e => (Raise e, db2, evs0 ++ evs1 ++ evs2)
                  | None =>
                      match print_executed S filepath with
                      | Some e => (Raise e, db2, evs0 ++ evs1 ++ evs2)
                      | None => (Ok tt, db2, evs0 ++ evs1 ++ evs2 ++ [SqlDone filepath])
                      end
                  end
              end
          end
      end
  end.
End ExecuteSqlFile.

(** The statements a run of [execute_sql_file] sends to the server. *)
Definition executed (evs : list SqlEvent) : list string :=
  omap (fun ev => match ev with SqlExecuted _ s => Some s | _ => None end) evs.

(** The segments of a text that are statements: not blank and not
    starting, after stripping, with a comment marker. *)
Definition is_statement (s : string) : bool :=
  negb (String.eqb s EmptyString) && negb (startswith "--" s).

(* ===================================================================== *)
(** ** Further notions used in the statements *)
(* ===================================================================== *)

(** The dimension datasets of a mapping, as the specification names
    them: the entries under customers, products and sales_reps, in the
    order of the mapping. *)
Definition dimension_datasets (d : dict DataFrame) : dict DataFrame :=
  List.filter (fun kv => String.eqb kv.1 "customers" || String.eqb kv.1 "products"
                         || String.eqb kv.1 "sales_reps") d.

(** The adapter [_transform] applies to a dataset name. *)
Definition adapter_of {Wh} (E : Env Wh) (name : string)
  : option (DataFrame -> Res DataFrame) :=
  if String.eqb name "sales" then Some (transform_sales_data E)
  else if String.eqb name "customers" then Some (transform_customer_data E)
  else if String.eqb name "products" then Some (transform_product_data E)
  else if String.eqb name "sales_reps" then Some (transform_sales_rep_data E)
  else None.

(** The entry of [self.stats] an audit stage name refers to. *)
Definition stage_entry (st : Stats) (stage : string) : option StageInfo :=
  if String.eqb stage "Extract" then Some (extract st)
  else if String.eqb stage "Transform" then Some (transform st)
  else if String.eqb stage "Load" then Some (load st)
  else None.

(** [x] occurs in a trace and [y] occurs later. *)
Definition occurs_before (x y : Event) (evs : list Event) : Prop :=
  ∃ l1 l2 l3, evs = l1 ++ x :: l2 ++ y :: l3.

(** A call of one of the two loaders. *)
Definition is_loader_call (ev : Event) : bool :=
  match ev with
  | EvLoadDims _ | EvLoadFact => true
  | _ => false
  end.

(** The stages entered in a trace, in the order of entry. *)
Definition entered_stages (evs : list Event) : list string :=
  omap (fun ev => match ev with EvEnter stage => Some stage | _ => None end) evs.

(** The log file of [etl/pipeline.py] can be opened: [logs] is a
    directory and [logs/etl_pipeline.log] is not one. *)
Definition logs_ready (fs : FS) : bool :=
  match nodes fs !! "logs" with
  | Some Dir =>
      match nodes fs !! path_join "logs" "etl_pipeline.log" with
      | Some Dir => false
      | _ => true
      end
  | _ => false
  end.

(** The connection [execute_sql_file] works on: the one passed in, or the
    one [mysql.connector.connect] returns. *)
Definition connection_used {DB} (S : Sql DB) (connection : option nat) (db : DB)
  : Res nat :=
  match connection with
  | Some c => Ok c
  | None => (sql_connect S db).1
  end.

(** The first of the closing steps of [execute_sql_file] to raise, if
    one does: [cursor.close()], [connection.close()] when the function
    opened the connection itself, the [print] of the closing line. *)
Definition closing_error {DB} (S : Sql DB) (filepath : string)
    (connection : option nat) (c : nat) (db1 : DB) : option exn :=
  match sql_cursor_close S c db1 with
  | Some e => Some e
  | None =>
      match (match connection with
             | None => (sql_close S c db1).1
             | Some _ => None
             end) with
      | Some e => Some e
      | None => print_executed S filepath
      end
  end.

(** The data base as the loop of [execute_sql_file] finds it: after the
    connection is made, when the function makes one. *)
Definition connected_db {DB} (S : Sql DB) (connection : option nat) (db : DB) : DB :=
  match connection with
  | Some _ => db
  | None => (sql_connect S db).2
  end.

(** The events of the loop of [execute_sql_file] on connection [c]. *)
Definition of_loop (c : nat) (ev : SqlEvent) : bool :=
  match ev with
  | SqlExecuted c' _ | SqlCommitted c' => Nat.eqb c' c
  | SqlWarned _ => true
  | _ => false
  end.

(* ===================================================================== *)
(** ** Sample data for the scripts *)
(* ===================================================================== *)

Module Fixtures.
Import Sample.

(** The customers file is on disk but cannot be parsed. *)
Definition broken_customers : FS :=
  mkFS (<["data" := Dir]>
        (<["data/raw" := Dir]>
        (<["data/raw/sales_transactions.csv" := File (Ok sales_df)]>
        (<["data/raw/customers.csv" :=
             File (Raise (Exn "ParserError" "Error tokenizing data" None))]>
        (<["data/raw/products.csv" := File (Ok products_df)]> ∅)))))
       allowed.

(** [data] is a regular file: no directory can be made below it. *)
Definition data_is_file : FS :=
  mkFS (<["data" := File (Ok customers_df)]> ∅) allowed.

(** The same files, with a [logs] directory next to them. *)
Definition with_logs (f : FS) : FS := mkFS (<["logs" := Dir]> (nodes f)) (refused f).

(** The fact loader fails on a constraint of the fact table. *)
Definition env_fact_fails : Env Warehouse.t :=
  mkEnv Warehouse.t clk keep keep keep keep Warehouse.load_dimension_tables
    (fun df w => (Raise (Exn "IntegrityError" "foreign key constraint fails" None), w))
    no_fault.

(** A server that keeps the statements it has committed; it refuses to
    create the table [dim_date] a second time. *)
Definition sql_server : Sql (list string) :=
  mkSql (list string)
    (fun db => (Ok 7%nat, db))
    (fun c db => None)
    (fun c statement db =>
       if String.eqb statement "CREATE TABLE dim_date (date_id INT)"
       then (Some "Table 'dim_date' already exists", db)
       else (None, db ++ [statement]))
    (fun c db => (None, db))
    (fun c db => None)
    (fun c db => (None, db))
    (fun filepath =>
       if String.eqb filepath "database/schema.sql"
       then Ok "-- schema ; CREATE TABLE dim_date (date_id INT) ;  ; CREATE TABLE fact_sales (order_number INT) "
       else Raise (Exn "FileNotFoundError" filepath None))
    (fun filepath => None).

(** The same server behind a console that cannot show the closing line. *)
Definition sql_server_mute : Sql (list string) :=
  mkSql (list string)
    (sql_connect sql_server) (sql_cursor sql_server) (sql_execute sql_server)
    (sql_commit sql_server) (sql_cursor_close sql_server) (sql_close sql_server)
    (read_text sql_server)
    (fun filepath => Some (Exn "UnicodeEncodeError" "'ascii' codec can't encode character" None)).
End Fixtures.

(* ===================================================================== *)
(** * Properties *)
(* ===================================================================== *)

(** ** Extraction *)

Lemma length_append_string (a b : string) :
  String.length (a +:+ b) = String.length a + String.length b.
Proof. induction a as [|c a IH]; simpl; [done | by rewrite IH]. Qed.

Lemma path_join_ne (p name : string) : path_join p name ≠ p.
Proof.
  unfold path_join. intros H.
  apply (f_equal String.length) in H.
  rewrite !length_append_string in H. simpl in H. lia.
Qed.

(** *** The directories on the way to a path *)

Lemma cuts_shorter s d : d ∈ cuts s → (String.length d < String.length s)%nat.
Proof.
  revert d. induction s as [|c s' IH]; intros d; simpl.
  - intros H. by apply elem_of_nil in H.
  - intros H. apply elem_of_app in H as [H|H].
    + apply list_elem_of_fmap in H as (d' & -> & H). simpl. apply IH in H. lia.
    + destruct (Ascii.eqb c "/"); [|by apply elem_of_nil in H].
      apply list_elem_of_singleton in H as ->. simpl. lia.
Qed.

Lemma cuts_NoDup s : NoDup (cuts s).
Proof.
  induction s as [|c s' IH]; simpl; [constructor|].
  apply NoDup_app. split; [|split].
  - apply NoDup_fmap_2; [|done]. by intros a b [=].
  - intros d H1 H2. apply list_elem_of_fmap in H1 as (d' & -> & _).
    destruct (Ascii.eqb c "/"); [|by apply elem_of_nil in H2].
    by apply list_elem_of_singleton in H2.
  - destruct (Ascii.eqb c "/"); [apply NoDup_singleton|constructor].
Qed.

Lemma ancestors_shorter p q : q ∈ ancestors p → (String.length q < String.length p)%nat.
Proof.
  unfold ancestors. intros H. apply list_elem_of_In, filter_In in H as [H _].
  by apply cuts_shorter, list_elem_of_In.
Qed.

Lemma path_chain_length p q : q ∈ path_chain p → (String.length q ≤ String.length p)%nat.
Proof.
  unfold path_chain. intros H. apply elem_of_app in H as [H|H].
  - apply elem_of_reverse, ancestors_shorter in H. lia.
  - apply list_elem_of_singleton in H as ->. lia.
Qed.

Lemma path_chain_NoDup p : NoDup (path_chain p).
Proof.
  unfold path_chain. apply NoDup_app. split; [|split].
  - rewrite reverse_Permutation. unfold ancestors.
    apply NoDup_ListNoDup, List.NoDup_filter, NoDup_ListNoDup, cuts_NoDup.
  - intros q H1 H2. apply list_elem_of_singleton in H2 as ->.
    apply elem_of_reverse, ancestors_shorter in H1. lia.
  - apply NoDup_singleton.
Qed.

Lemma path_chain_self p : p ∈ path_chain p.
Proof. unfold path_chain. apply elem_of_app. right. by left. Qed.

Lemma path_join_not_on_chain p name : path_join p name ∉ path_chain p.
Proof.
  intros H. apply path_chain_length in H. unfold path_join in H.
  rewrite !length_append_string in H. simpl in H. lia.
Qed.

(** *** [mkdir] *)

(** Whatever it returns, [make_dirs] removes and rewrites nothing: what
    differs afterwards is a directory on the list that was missing. *)
Lemma make_dirs_frame p qs : ∀ fs r fs',
  make_dirs p qs fs = (r, fs') →
  refused fs' = refused fs ∧
  ∀ x, nodes fs' !! x = nodes fs !! x ∨
       (x ∈ qs ∧ nodes fs !! x = None ∧ nodes fs' !! x = Some Dir).
Proof.
  induction qs as [|q qs IH]; intros fs r fs'; simpl.
  - intros [= <- <-]. split; [done|]. by left.
  - destruct (nodes fs !! q) as [[|rr]|] eqn:Hq.
    + intros H. destruct (IH _ _ _ H) as [Hr Hx]. split; [done|].
      intros x. destruct (Hx x) as [?|(? & ? & ?)]; [by left|].
      right. split; [by right|done].
    + destruct (String.eqb q p); intros [= <- <-]; (split; [done|]); by left.
    + destruct (refused fs q) as [e|].
      * intros [= <- <-]. split; [done|]. by left.
      * intros H. destruct (IH _ _ _ H) as [Hr Hx]. split; [done|].
        intros x. simpl in Hx. destruct (Hx x) as [Hsame|(Hin & Hn & Hd)].
        -- destruct (decide (x = q)) as [->|Hne].
           ++ right. rewrite lookup_insert_eq in Hsame. split; [by left|done].
           ++ left. by rewrite lookup_insert_ne in Hsame.
        -- destruct (decide (x = q)) as [->|Hne].
           ++ by rewrite lookup_insert_eq in Hn.
           ++ rewrite lookup_insert_ne in Hn by done. right. split; [by right|done].
Qed.

Lemma make_dirs_ok p qs : ∀ fs fs',
  make_dirs p qs fs = (Ok tt, fs') → ∀ q, q ∈ qs → nodes fs' !! q = Some Dir.
Proof.
  induction qs as [|q0 qs IH]; intros fs fs' H q Hin; [by apply elem_of_nil in Hin|].
  simpl in H.
  assert (∀ fs1, nodes fs1 !! q0 = Some Dir → make_dirs p qs fs1 = (Ok tt, fs') →
                 nodes fs' !! q = Some Dir) as Hstep.
  { intros fs1 Hd H1. apply elem_of_cons in Hin as [->|Hin]; [|by apply (IH _ _ H1)].
    destruct (make_dirs_frame _ _ _ _ _ H1) as [_ Hx].
    destruct (Hx q0) as [Hs|(_ & _ & Hs)]; [by rewrite Hs|done]. }
  destruct (nodes fs !! q0) as [[|rr]|] eqn:Hq.
  - by apply (Hstep fs).
  - destruct (String.eqb q0 p); discriminate.
  - destruct (refused fs q0) as [e|]; [discriminate|].
    apply (Hstep _ (lookup_insert_eq _ _ _) H).
Qed.

Lemma make_dirs_dirs p qs fs :
  (∀ q, q ∈ qs → nodes fs !! q = Some Dir) → make_dirs p qs fs = (Ok tt, fs).
Proof.
  induction qs as [|q qs IH]; intros H; [done|]. simpl.
  rewrite (H q) by by left. apply IH. intros q' Hq'. apply H. by right.
Qed.

Lemma make_dirs_again p qs : ∀ fs r fs',
  NoDup qs → make_dirs p qs fs = (r, fs') → make_dirs p qs fs' = (r, fs').
Proof.
  induction qs as [|q qs IH]; intros fs r fs' Hnd; simpl.
  - by intros [= <- <-].
  - apply NoDup_cons in Hnd as [Hq Hnd].
    assert (∀ fs1, nodes fs1 !! q = Some Dir → make_dirs p qs fs1 = (r, fs') →
                   match nodes fs' !! q with
                   | Some Dir => make_dirs p qs fs'
                   | Some (File _) =>
                       if String.eqb q p
                       then (Raise (oserror "FileExistsError" "17" "File exists" p), fs')
                       else (Raise (oserror "NotADirectoryError" "20" "Not a directory" p), fs')
                   | None =>
                       match refused fs' q with
                       | Some e => (Raise e, fs')
                       | None => make_dirs p qs (mkFS (<[q := Dir]> (nodes fs')) (refused fs'))
                       end
                   end = (r, fs')) as Hstep.
    { intros fs1 Hd H1. destruct (make_dirs_frame _ _ _ _ _ H1) as [_ Hx].
      destruct (Hx q) as [Hs|(Hin & _)]; [|done].
      rewrite Hs, Hd. by apply (IH fs1). }
    destruct (nodes fs !! q) as [[|rr]|] eqn:Hn.
    + by apply Hstep.
    + destruct (String.eqb q p) eqn:Hqp; intros [= <- <-]; by rewrite Hn.
    + destruct (refused fs q) as [e|] eqn:Hr.
      * intros [= <- <-]. by rewrite Hn, Hr.
      * apply Hstep. simpl. apply lookup_insert_eq.
Qed.

Lemma mkdir_frame p fs r fs' :
  mkdir p fs = (r, fs') →
  refused fs' = refused fs ∧
  ∀ x, nodes fs' !! x = nodes fs !! x ∨
       (x ∈ path_chain p ∧ nodes fs !! x = None ∧ nodes fs' !! x = Some Dir).
Proof. apply make_dirs_frame. Qed.

Lemma mkdir_ok_nodes p fs fs' :
  mkdir p fs = (Ok tt, fs') →
  ∀ name, nodes fs' !! path_join p name = nodes fs !! path_join p name.
Proof.
  intros H name. destruct (mkdir_frame _ _ _ _ H) as [_ Hx].
  destruct (Hx (path_join p name)) as [?|(Hin & _)]; [done|].
  by apply path_join_not_on_chain in Hin.
Qed.

Lemma mkdir_ok_dir p fs fs' : mkdir p fs = (Ok tt, fs') → nodes fs' !! p = Some Dir.
Proof. intros H. apply (make_dirs_ok _ _ _ _ H), path_chain_self. Qed.

Lemma path_exists_mkdir p fs fs' name :
  mkdir p fs = (Ok tt, fs') →
  path_exists fs' (path_join p name) = path_exists fs (path_join p name).
Proof. intros H. unfold path_exists. by rewrite (mkdir_ok_nodes _ _ _ H). Qed.

Lemma read_csv_mkdir p fs fs' name :
  mkdir p fs = (Ok tt, fs') →
  read_csv fs' (path_join p name) = read_csv fs (path_join p name).
Proof. intros H. unfold read_csv. by rewrite (mkdir_ok_nodes _ _ _ H). Qed.

Lemma mkdir_again p fs r fs1 : mkdir p fs = (r, fs1) → mkdir p fs1 = (r, fs1).
Proof. apply make_dirs_again, path_chain_NoDup. Qed.

(** *** [DataExtractor.validate_data] *)
Lemma missing_columns_empty (cs cols : list string) :
  (list_to_set cs ∖ list_to_set cols : gset string) = ∅ ↔ ∀ c, c ∈ cs → c ∈ cols.
Proof.
  split.
  - intros H c Hc. destruct (decide (c ∈ cols)) as [|Hn]; [done|].
    assert (c ∈ (list_to_set cs ∖ list_to_set cols : gset string)) as Hin
      by (apply elem_of_difference; split; by rewrite elem_of_list_to_set).
    rewrite H in Hin. by apply not_elem_of_empty in Hin.
  - intros H. apply leibniz_equiv. set_solver.
Qed.

(** C10: [validate_data d cs] returns [True] exactly when [d] is not empty
    and every name of [cs] is a column of [d] (nothing is required when
    [cs] is omitted); it returns normally in every case and leaves [d]
    as it was. *)
Theorem validate_data_iff (d : DataFrame) (cs : option (list string)) :
  ∃ b : bool,
    validate_data (Some d) cs = (Ok b, Some d) ∧
    (b = true ↔ df_empty d = false ∧ ∀ c, c ∈ default [] cs → c ∈ columns d).
Proof.
  unfold validate_data.
  destruct (df_empty d) eqn:He.
  { exists false. split; [done|]. split; [done | intros [? _]; done]. }
  destruct cs as [[|c cs]|]; simpl.
  - exists true. split; [done|]. split; [|done]. intros _. split; [done|]. intros c Hc. set_solver.
  - case_bool_decide as Hm.
    + exists false. split; [done|]. split; [done|]. intros [_ Hall].
      exfalso. apply Hm. by apply (missing_columns_empty (c :: cs)).
    + exists true. split; [done|]. split; [|done]. intros _. split; [done|].
      apply (missing_columns_empty (c :: cs)).
      exact Hm.
  - exists true. split; [done|]. split; [|done]. intros _. split; [done|]. intros c Hc. set_solver.
Qed.

Lemma dict_in_keys {V} k (d : dict V) : dict_in k d = true ↔ k ∈ dict_keys d.
Proof.
  unfold dict_in, dict_keys. induction d as [|[k' v] d IH]; simpl.
  - split; [done | by intros ?%elem_of_nil].
  - destruct (String.eqb_spec k k') as [->|Hne].
    + split; [intros _; apply elem_of_cons; by left | done].
    + rewrite IH. rewrite elem_of_cons. naive_solver.
Qed.

Lemma source_file_cases k file :
  source_file k = Some file ↔
  (k = "sales" ∧ file = "sales_transactions.csv") ∨
  (k = "customers" ∧ file = "customers.csv") ∨
  (k = "products" ∧ file = "products.csv") ∨
  (k = "sales_reps" ∧ file = "sales_reps.csv").
Proof.
  unfold source_file. split.
  - destruct (String.eqb_spec k "sales") as [->|?];
      [|destruct (String.eqb_spec k "customers") as [->|?];
        [|destruct (String.eqb_spec k "products") as [->|?];
          [|destruct (String.eqb_spec k "sales_reps") as [->|?]]]];
      intros [= Hf]; subst; eauto 10.
  - intros [[-> ->]|[[-> ->]|[[-> ->]|[-> ->]]]]; reflexivity.
Qed.

(** C9: the keys of the mapping returned by [extract_sales_data] are
    among sales, customers, products and sales_reps, and a key is present
    exactly when its CSV file exists under the data path; a missing file
    is never the cause of an error: extraction returns whenever the
    directory is usable and the files that do exist can be parsed. *)
Theorem extract_sales_data_keys (p : string) (fs : FS) :
  (∀ d fs', extract_sales_data p fs = (Ok d, fs') →
     (∀ k, k ∈ dict_keys d → k ∈ known_datasets) ∧
     (∀ k, k ∈ dict_keys d ↔
           ∃ file, source_file k = Some file ∧
                   path_exists fs (path_join p file) = true)) ∧
  (readable p fs → ∃ d fs', extract_sales_data p fs = (Ok d, fs')).
Proof.
  unfold extract_sales_data, DataExtractor_init, extract_csv, readable.
  destruct (mkdir p fs) as [[[]|e] fs1] eqn:Hmk; simpl.
  2:{ split; [intros ?? [=] | intros [[=] _]]. }
  rewrite !(path_exists_mkdir _ _ _ _ Hmk), !(read_csv_mkdir _ _ _ _ Hmk).
  split.
  - intros d fs' H.
    assert (∀ k, k ∈ dict_keys d ↔
           ∃ file, source_file k = Some file ∧
                   path_exists fs (path_join p file) = true) as Hiff.
    { intros k. setoid_rewrite source_file_cases.
      destruct (path_exists fs (path_join p "sales_transactions.csv")) eqn:E1;
      [destruct (read_csv fs (path_join p "sales_transactions.csv")) eqn:R1|];
      simpl in H; try discriminate;
      (destruct (path_exists fs (path_join p "customers.csv")) eqn:E2;
      [destruct (read_csv fs (path_join p "customers.csv")) eqn:R2|]);
      simpl in H; try discriminate;
      (destruct (path_exists fs (path_join p "products.csv")) eqn:E3;
      [destruct (read_csv fs (path_join p "products.csv")) eqn:R3|]);
      simpl in H; try discriminate;
      (destruct (path_exists fs (path_join p "sales_reps.csv")) eqn:E4;
      [destruct (read_csv fs (path_join p "sales_reps.csv")) eqn:R4|]);
      simpl in H; try discriminate;
      inversion H; subst; clear H; unfold dict_keys; simpl;
      rewrite ?elem_of_cons, ?elem_of_nil;
      (split;
      [ intros Hk; repeat (destruct Hk as [->|Hk]); try done; eauto 10
      | intros (file & [[-> ->]|[[-> ->]|[[-> ->]|[-> ->]]]] & Hex); try congruence; eauto 10 ]). }
    split; [|exact Hiff].
    intros k (file & Hf & _)%Hiff. apply source_file_cases in Hf.
    unfold known_datasets. set_solver.
  - intros [_ Hrd].
    pose proof (Hrd "sales" _ eq_refl) as H1.
    pose proof (Hrd "customers" _ eq_refl) as H2.
    pose proof (Hrd "products" _ eq_refl) as H3.
    pose proof (Hrd "sales_reps" _ eq_refl) as H4.
    destruct (path_exists fs (path_join p "sales_transactions.csv"));
      [destruct (read_csv fs (path_join p "sales_transactions.csv")); [|by specialize (H1 eq_refl)]|];
    (destruct (path_exists fs (path_join p "customers.csv"));
      [destruct (read_csv fs (path_join p "customers.csv")); [|by specialize (H2 eq_refl)]|]);
    (destruct (path_exists fs (path_join p "products.csv"));
      [destruct (read_csv fs (path_join p "products.csv")); [|by specialize (H3 eq_refl)]|]);
    (destruct (path_exists fs (path_join p "sales_reps.csv"));
      [destruct (read_csv fs (path_join p "sales_reps.csv")); [|by specialize (H4 eq_refl)]|]);
    simpl; eauto.
Qed.

(** ** The three stages *)

(** Unfolding of the monad's plumbing, one layer at a time. *)
Ltac mstep :=
  cbv beta iota zeta delta
    [bind try_except ret raise emit get_self set_start_time set_stats on_fs on_wh lift
     mbind M_bind mret M_ret result self_of world_of events].

Section StageLemmas.
Context {Wh : Type} (E : Env Wh).

Lemma _extract_out p self (w : World Wh) :
  _extract p self w =
  match extract_sales_data p (fs w) with
  | (Ok raw, fs') =>
      mkOut (Ok raw)
        (with_stats (set_extract (fun _ =>
           mkStage "Success" (total_len raw) (Some (dict_keys raw)))) self)
        (mkWorld fs' (wh w) (ticks w)) [EvEnter "Extract"]
  | (Raise e, fs') =>
      mkOut (Raise e) (with_stats (set_extract (with_status "Failed")) self)
        (mkWorld fs' (wh w) (ticks w))
        [EvEnter "Extract"; EvStageFailed "Extract" e]
  end.
Proof.
  unfold _extract. mstep. destruct (extract_sales_data p (fs w)) as [[raw|e] fs']; reflexivity.
Qed.

Lemma _transform_out raw self w :
  _transform E raw self w =
  match transform_all E raw with
  | (Ok td, called) =>
      mkOut (Ok td)
        (with_stats (set_transform (fun _ =>
           mkStage "Success" (total_len td) (Some (dict_keys td)))) self)
        w (EvEnter "Transform" :: (EvTransform <$> called))
  | (Raise e, called) =>
      mkOut (Raise e) (with_stats (set_transform (with_status "Failed")) self) w
        (EvEnter "Transform" :: (EvTransform <$> called) ++ [EvStageFailed "Transform" e])
  end.
Proof.
  unfold _transform, transform_all, transform_step, transform_one. mstep.
  destruct (dict_get "sales" raw) as [d1|]; [destruct (transform_sales_data E d1)|]; mstep; try reflexivity;
  (destruct (dict_get "customers" raw) as [d2|]; [destruct (transform_customer_data E d2)|]); mstep; try reflexivity;
  (destruct (dict_get "products" raw) as [d3|]; [destruct (transform_product_data E d3)|]); mstep; try reflexivity;
  (destruct (dict_get "sales_reps" raw) as [d4|]; [destruct (transform_sales_rep_data E d4)|]); mstep; reflexivity.
Qed.

Lemma _load_out td self w :
  _load E td self w =
  match load_all E td (wh w) with
  | (Ok lr, wh', evs) =>
      mkOut (Ok lr)
        (with_stats (set_load (fun _ =>
           mkStage "Success" (sum (dict_values lr)) (Some (dict_keys lr)))) self)
        (mkWorld (fs w) wh' (ticks w)) (EvEnter "Load" :: evs)
  | (Raise e, wh', evs) =>
      mkOut (Raise e) (with_stats (set_load (with_status "Failed")) self)
        (mkWorld (fs w) wh' (ticks w))
        (EvEnter "Load" :: evs ++ [EvStageFailed "Load" e])
  end.
Proof.
  unfold _load, load_all, load_dims_part. mstep.
  destruct w as [f0 w0 n0]. cbv beta iota zeta delta [wh fs ticks].
  destruct (dimension_part td) as [|kv dd] eqn:Hf; mstep.
  - destruct (dict_get "sales" td) as [df|]; mstep; [|reflexivity].
    cbv beta iota zeta delta [wh fs ticks].
    destruct (load_fact_sales E df w0) as [[n|e] w2]; reflexivity.
  - cbv beta iota zeta delta [wh fs ticks].
    destruct (load_dimension_tables E (kv :: dd) w0) as [[dr|e] w1]; mstep; [|reflexivity].
    destruct (dict_get "sales" td) as [df|]; mstep; [|reflexivity].
    cbv beta iota zeta delta [wh fs ticks].
    destruct (load_fact_sales E df w1) as [[n|e] w2]; reflexivity.
Qed.
End StageLemmas.

(** ** The orchestrator *)

(** Symbolic execution of [run]: unfold the plumbing, use the equations
    of the three stages, and split on every outcome of a collaborator. *)
Ltac rstep_in H :=
  cbv beta iota zeta delta
    [bind try_except ret raise emit get_self set_start_time set_stats on_fs on_wh lift
     mbind M_bind mret M_ret now log_etl_audit _print_summary
     pipeline_name start_time stats with_stats fs wh ticks
     result self_of world_of events] in H.

Ltac run_exec_using pre H :=
  unfold run in H;
  repeat first
    [ progress (rstep_in H)
    | pre
    | rewrite _extract_out in H
    | rewrite _transform_out in H
    | rewrite _load_out in H
    | match type of H with
      | context [match audit_fault ?E ?a with _ => _ end] =>
          destruct (audit_fault E a) eqn:?
      end
    | match type of H with
      | context [match extract_sales_data ?p ?f with _ => _ end] =>
          destruct (extract_sales_data p f) as [[?raw|?e] ?fs'] eqn:?
      end
    | match type of H with
      | context [match transform_all ?E ?r with _ => _ end] =>
          destruct (transform_all E r) as [[?td|?e] ?called] eqn:?
      end
    | match type of H with
      | context [match load_all ?E ?t ?w with _ => _ end] =>
          destruct (load_all E t w) as [[[?lr|?e] ?wh'] ?levs] eqn:?
      end ].

Ltac run_exec H := run_exec_using fail H.

Lemma audit_records_app evs1 evs2 :
  audit_records (evs1 ++ evs2) = audit_records evs1 ++ audit_records evs2.
Proof. apply omap_app. Qed.

Lemma audit_records_nil : audit_records [] = [].
Proof. reflexivity. Qed.

Lemma audit_records_audit a t evs :
  audit_records (EvAudit a t :: evs) = a :: audit_records evs.
Proof. reflexivity. Qed.

Lemma audit_records_enter s evs :
  audit_records (EvEnter s :: evs) = audit_records evs.
Proof. reflexivity. Qed.

Lemma audit_records_stage_failed s e evs :
  audit_records (EvStageFailed s e :: evs) = audit_records evs.
Proof. reflexivity. Qed.

Lemma audit_records_calls evs :
  Forall (fun ev => is_call ev = true) evs → audit_records evs = [].
Proof.
  induction 1 as [|ev evs Hev _ IH]; [done|].
  unfold audit_records in *. destruct ev; simpl in *; done.
Qed.

Lemma transform_calls (called : list string) :
  Forall (fun ev => is_call ev = true) (EvTransform <$> called).
Proof. apply Forall_fmap, Forall_true. done. Qed.

Lemma audit_records_transform (called : list string) :
  audit_records (EvTransform <$> called) = [].
Proof. apply audit_records_calls, transform_calls. Qed.

Lemma not_in_calls ev evs :
  Forall (fun ev => is_call ev = true) evs → is_call ev = false → ev ∉ evs.
Proof.
  intros Hall Hev Hin. rewrite Forall_forall in Hall.
  specialize (Hall _ Hin). congruence.
Qed.

Create Rewrite HintDb audit.
#[global] Hint Rewrite audit_records_app audit_records_nil audit_records_audit
  audit_records_enter audit_records_stage_failed audit_records_transform : audit.

Lemma suffix_snoc2 {A} (l : list A) (x y : A) : [x; y] `suffix_of` (l ++ [x]) ++ [y].
Proof. exists l. by rewrite <- app_assoc. Qed.

Ltac solve_suffix :=
  first [ reflexivity
        | apply suffix_snoc2
        | apply suffix_cons_r; solve_suffix
        | apply suffix_app_r; solve_suffix ].

(** An event that is not a loader/adapter call is not in a list of calls. *)
Ltac absurd_call H :=
  exfalso;
  (eapply not_in_calls; [ | | exact H];
   [ first [apply transform_calls | eassumption] | reflexivity ]).

Ltac solve_in :=
  first [ apply list_elem_of_here
        | apply list_elem_of_further; solve_in
        | apply elem_of_app; right; solve_in ].

(** Membership of an event in the explicit trace of a path: every
    alternative is an equation between events or membership in a list of
    loader/adapter calls. *)
Ltac split_in H :=
  repeat first
    [ apply elem_of_cons in H as [H|H]
    | apply elem_of_app in H as [H|H]
    | apply elem_of_nil in H; destruct H ].

Lemma failed_stage_extract st :
  failed_stage (set_extract (with_status "Failed") st) = "Extract".
Proof. reflexivity. Qed.

Lemma failed_stage_transform st r ns :
  failed_stage (set_transform (with_status "Failed")
                  (set_extract (fun _ => mkStage "Success" r ns) st)) = "Transform".
Proof. reflexivity. Qed.

Lemma failed_stage_load st r ns r' ns' :
  failed_stage (set_load (with_status "Failed")
                  (set_transform (fun _ => mkStage "Success" r' ns')
                     (set_extract (fun _ => mkStage "Success" r ns) st))) = "Load".
Proof. reflexivity. Qed.

Section RunLemmas.
Context {Wh : Type} (E : Env Wh).

Lemma load_all_calls td w r w' evs :
  load_all E td w = (r, w', evs) → Forall (fun ev => is_call ev = true) evs.
Proof.
  unfold load_all, load_dims_part. intros H.
  destruct (dimension_part td) as [|kv dd].
  - destruct (dict_get "sales" td) as [df|].
    + destruct (load_fact_sales E df w) as [[n|e] w2]; inversion H; subst; repeat constructor.
    + inversion H; subst; constructor.
  - destruct (load_dimension_tables E (kv :: dd) w) as [[dr|e] w1].
    + destruct (dict_get "sales" td) as [df|].
      * destruct (load_fact_sales E df w1) as [[n|e] w2]; inversion H; subst; repeat constructor.
      * inversion H; subst; repeat constructor.
    + inversion H; subst; repeat constructor.
Qed.

(** C1: in every run in which a stage raises, [run] emits exactly one
    Failed audit record; it comes right after the stage's failure and
    is the last event of the run, it names the first stage whose
    recorded status is not Success (which is the stage that raised) and
    carries the message of the exception; the run then ends by raising:
    it never returns normally, and it raises the stage's exception
    whenever the recorder call of the handler returns. *)
Theorem run_reports_stage_failure p self (w : World Wh) stage e :
  EvStageFailed stage e ∈ events (run E p self w) →
  ∃ a t,
    [EvStageFailed stage e; EvAudit a t] `suffix_of` events (run E p self w) ∧
    failed_records (events (run E p self w)) = [a] ∧
    a_status a = "Failed" ∧
    a_stage a = failed_stage (stats (self_of (run E p self w))) ∧
    a_stage a = stage ∧
    a_error a = Some (str e) ∧
    is_ok (result (run E p self w)) = false ∧
    (audit_fault E a = None → result (run E p self w) = Raise e).
Proof.
  remember (run E p self w) as o eqn:Ho. intros Hin.
  destruct self as [name st0 stats0], w as [f0 w0 n].
  run_exec Ho; subst o; simpl in Hin |- *;
    repeat (rewrite <- app_assoc; simpl);
    repeat match goal with
           | H : load_all _ _ _ = _ |- _ => apply load_all_calls in H
           end;
    split_in Hin; try discriminate;
    try absurd_call Hin.
  all: inversion Hin; subst; clear Hin.
  all: eexists _, _; (split;
    [         solve_suffix |]).
  all: split; [unfold failed_records; autorewrite with audit;
               rewrite ?audit_records_calls by assumption; reflexivity|].
  all: repeat split; try reflexivity; try congruence.
  all: intros; simpl in *; congruence.
Qed.

(** C3 (amended): when no exception escapes the audit recorder, every
    run, successful or failed in any stage, has for every stage entered
    at least one Started record and exactly one terminal record, and
    no record for a stage never entered. *)
Theorem run_audit_complete p self (w : World Wh) :
  audit_reliable E → audit_complete (events (run E p self w)).
Proof.
  intros Hrel stage. unfold entered.
  remember (run E p self w) as o eqn:Ho.
  destruct self as [name st0 stats0], w as [f0 w0 n].
  run_exec Ho;
    try match goal with
        | H : audit_fault E ?a = Some _ |- _ => rewrite Hrel in H; discriminate
        end.
  all: subst o; simpl; repeat (rewrite <- app_assoc; simpl).
  all: repeat match goal with
           | H : load_all _ _ _ = _ |- _ => apply load_all_calls in H
           end.
  all: unfold started_records, terminal_records, stage_records;
       autorewrite with audit; rewrite ?audit_records_calls by assumption; simpl.
  all: destruct (decide (stage = "Extract")) as [->|N1];
       [|destruct (decide (stage = "Transform")) as [->|N2];
         [|destruct (decide (stage = "Load")) as [->|N3]]].
  all: (split; [intros Hin | intros Hn]).
  all: first
    [ solve [simpl; split; [lia | reflexivity]]
    | solve [simpl; reflexivity]
    | solve [exfalso; apply Hn; solve_in]
    | solve [exfalso; split_in Hin; try discriminate; try congruence;
             absurd_call Hin]
    | solve [unfold of_stage; cbn [a_stage]; rewrite ?failed_stage_extract,
               ?failed_stage_transform, ?failed_stage_load;
             repeat match goal with
               | |- context [String.eqb ?a ?s] =>
                   is_var s; destruct (String.eqb_spec a s); [congruence|]
               end; reflexivity] ].
Qed.

End RunLemmas.

(** ** Stage by stage *)

Ltac pick_case :=
  eexists _, _;
  first [ left; by repeat split
        | right; left; by repeat split
        | right; right; left; by repeat split
        | right; right; right; left; by repeat split
        | right; right; right; right; by repeat split ].

Section Stages.
Context {Wh : Type} (E : Env Wh).

(** *** Order of the loads *)

Lemma load_all_shape td w :
  let dims := dict_keys (dimension_part td) in
  ∃ r w',
    (load_all E td w = (r, w', []) ∧ dims = [] ∧ dict_in "sales" td = false) ∨
    (load_all E td w = (r, w', [EvLoadFact]) ∧ dims = [] ∧ dict_in "sales" td = true) ∨
    (load_all E td w = (r, w', [EvLoadDims dims]) ∧ is_ok r = false) ∨
    (load_all E td w = (r, w', [EvLoadDims dims; EvLoadDimsDone]) ∧
       dict_in "sales" td = false) ∨
    (load_all E td w = (r, w', [EvLoadDims dims; EvLoadDimsDone; EvLoadFact]) ∧
       dict_in "sales" td = true).
Proof.
  unfold load_all, load_dims_part, dict_in. cbv zeta.
  destruct (dimension_part td) as [|kv dd].
  - destruct (dict_get "sales" td) as [df|].
    + destruct (load_fact_sales E df w) as [[n|e] w2]; pick_case.
    + pick_case.
  - destruct (load_dimension_tables E (kv :: dd) w) as [[dr|e] w1].
    + destruct (dict_get "sales" td) as [df|].
      * destruct (load_fact_sales E df w1) as [[n|e] w2]; pick_case.
      * pick_case.
    + pick_case.
Qed.

Lemma dimension_present td name :
  name ∈ dimension_names → name ∈ dict_keys td →
  name ∈ dict_keys (dimension_part td).
Proof.
  unfold dict_keys, dimension_part. intros Hd Hk.
  apply list_elem_of_fmap in Hk as ([k v] & -> & Hin).
  apply list_elem_of_fmap. exists (k, v). split; [done|].
  apply list_elem_of_filter. split; done.
Qed.


Lemma transform_all_nil : transform_all E [] = (Ok [], []).
Proof. reflexivity. Qed.

Lemma load_all_nil w : load_all E [] w = (Ok [], w, []).
Proof. reflexivity. Qed.

Lemma dimension_part_datasets (td : dict DataFrame) :
  dimension_part td = dimension_datasets td.
Proof.
  unfold dimension_part, dimension_datasets, dimension_names.
  induction td as [|[k v] td IH]; [done|].
  unfold dict in *. rewrite filter_cons. cbn [List.filter fst]. rewrite IH.
  destruct (String.eqb_spec k "customers") as [->|N1];
    [|destruct (String.eqb_spec k "products") as [->|N2];
      [|destruct (String.eqb_spec k "sales_reps") as [->|N3]]];
    cbn [orb].
  - rewrite decide_True; [done|]. simpl. set_solver.
  - rewrite decide_True; [done|]. simpl. set_solver.
  - rewrite decide_True; [done|]. simpl. set_solver.
  - rewrite decide_False; [done|]. simpl. set_solver.
Qed.

Lemma dimension_datasets_keys (td : dict DataFrame) name :
  name ∈ dict_keys (dimension_datasets td) ↔
  name ∈ dimension_names ∧ name ∈ dict_keys td.
Proof.
  unfold dict_keys, dimension_datasets, dimension_names. split.
  - intros H. apply list_elem_of_fmap in H as ([k v] & -> & Hin).
    apply list_elem_of_In, filter_In in Hin as [Hin Hk]. simpl in *.
    split.
    + destruct (String.eqb_spec k "customers") as [->|N1];
        [|destruct (String.eqb_spec k "products") as [->|N2];
          [|destruct (String.eqb_spec k "sales_reps") as [->|N3]]];
        first [ discriminate | set_solver ].
    + apply list_elem_of_fmap. exists (k, v). split; [done|]. by apply list_elem_of_In.
  - intros [Hd Hk]. apply list_elem_of_fmap in Hk as ([k v] & -> & Hin).
    apply list_elem_of_fmap. exists (k, v). split; [done|].
    apply list_elem_of_In, filter_In. split; [by apply list_elem_of_In|].
    simpl in *.
    repeat (apply elem_of_cons in Hd as [->|Hd]; [reflexivity|]).
    by apply elem_of_nil in Hd.
Qed.

(** C5: for every extracted mapping, datasets that are absent are
    skipped and are not an error: when the adapters return normally on
    the datasets that are present, [_transform] returns, having called
    the adapters of exactly the known names present, in order; when the
    loaders return normally, [_load] returns, having handed to the
    dimension loader, in one call, exactly the datasets present under
    customers, products and sales_reps, no call being made when none is
    present, and to the fact loader the sales dataset exactly when it
    is present, the warehouse being what these two calls leave; and an
    empty extraction result gives a run that returns statistics with
    status Success and zero records for every stage, without calling
    any adapter or loader. *)
Theorem partial_sources_tolerated p raw td self (w : World Wh) :
  (adapters_accept E raw →
     ∃ td', result (_transform E raw self w) = Ok td' ∧
            dict_keys td' = present known_datasets raw ∧
            events (_transform E raw self w) =
              EvEnter "Transform" :: (EvTransform <$> present known_datasets raw) ∧
            status (transform (stats (self_of (_transform E raw self w)))) = "Success") ∧
  (loaders_accept E td →
     ∃ lr, result (_load E td self w) = Ok lr ∧
           status (load (stats (self_of (_load E td self w)))) = "Success" ∧
           events (_load E td self w) =
             EvEnter "Load" ::
             (match dict_keys (dimension_datasets td) with
              | [] => []
              | names => [EvLoadDims names; EvLoadDimsDone]
              end ++ ((fun _ => EvLoadFact) <$> present ["sales"] td)) ∧
           (∀ name, name ∈ dict_keys (dimension_datasets td) ↔
                    name ∈ dimension_names ∧ name ∈ dict_keys td) ∧
           wh (world_of (_load E td self w)) =
             (let w1 := match dimension_datasets td with
                        | [] => wh w
                        | dd => (load_dimension_tables E dd (wh w)).2
                        end in
              match dict_get "sales" td with
              | Some df => (load_fact_sales E df w1).2
              | None => w1
              end)) ∧
  (audit_reliable E → (extract_sales_data p (fs w)).1 = Ok [] →
     result (run E p self w) =
       Ok (mkStats (mkStage "Success" 0 (Some [])) (mkStage "Success" 0 (Some []))
                   (mkStage "Success" 0 (Some []))) ∧
     stats (self_of (run E p self w)) =
       mkStats (mkStage "Success" 0 (Some [])) (mkStage "Success" 0 (Some []))
               (mkStage "Success" 0 (Some [])) ∧
     Forall (fun ev => is_call ev = false) (events (run E p self w))).
Proof.
  split; [|split].
  - intros (H1 & H2 & H3 & H4). rewrite _transform_out.
    unfold transform_all, transform_one, present, known_datasets.
    cbn [List.filter]. unfold dict_in.
    destruct (dict_get "sales" raw) as [d1|];
      [specialize (H1 _ eq_refl); destruct (transform_sales_data E d1); [|discriminate]|];
    (destruct (dict_get "customers" raw) as [d2|];
      [specialize (H2 _ eq_refl); destruct (transform_customer_data E d2); [|discriminate]|]);
    (destruct (dict_get "products" raw) as [d3|];
      [specialize (H3 _ eq_refl); destruct (transform_product_data E d3); [|discriminate]|]);
    (destruct (dict_get "sales_reps" raw) as [d4|];
      [specialize (H4 _ eq_refl); destruct (transform_sales_rep_data E d4); [|discriminate]|]);
    simpl; eexists; repeat split; reflexivity.
  - intros [Hd Hf]. rewrite _load_out.
    pose proof (dimension_datasets_keys td) as Hkeys.
    rewrite <- (dimension_part_datasets td) in *.
    unfold load_all, load_dims_part, present. cbn [List.filter]. unfold dict_in.
    specialize (Hd (wh w)). revert Hkeys.
    destruct (dimension_part td) as [|kv dd] eqn:Hdp; intros Hkeys.
    + destruct (dict_get "sales" td) as [df|]; [|simpl; eexists; by repeat (split; [done|])].
      specialize (Hf df (wh w) eq_refl).
      destruct (load_fact_sales E df (wh w)) as [[k|e] w2]; [|discriminate].
      simpl; eexists; by repeat (split; [done|]).
    + destruct (load_dimension_tables E (kv :: dd) (wh w)) as [[dr|e] w1]; [|discriminate].
      cbn [snd].
      destruct (dict_get "sales" td) as [df|]; [|simpl; eexists; by repeat (split; [done|])].
      specialize (Hf df w1 eq_refl).
      destruct (load_fact_sales E df w1) as [[k|e] w2]; [|discriminate].
      simpl; eexists; by repeat (split; [done|]).
  - intros Hrel Hex.
    remember (run E p self w) as o eqn:Ho.
    destruct self as [name st0 stats0], w as [f0 w0 n]. simpl in Hex.
    destruct (extract_sales_data p f0) as [r fs'] eqn:Hx. simpl in Hex. subst r.
    run_exec_using ltac:(first [ rewrite Hx in Ho | rewrite transform_all_nil in Ho
                               | rewrite load_all_nil in Ho | rewrite Hrel in Ho ]) Ho.
    subst o. simpl. repeat split. repeat constructor.
Qed.

(** C6 (amended): when no exception escapes the audit recorder, [run]
    either returns [self.stats] with all three stages Success and no
    stage failure, or a stage raised and [run] raises that very
    exception, unchanged; the failing stage is the one [run] records,
    it is not part of the error value. *)
Theorem run_returns_stats_or_reraises p self (w : World Wh) :
  audit_reliable E →
  (∃ st, result (run E p self w) = Ok st ∧
         st = stats (self_of (run E p self w)) ∧
         status (extract st) = "Success" ∧
         status (transform st) = "Success" ∧
         status (load st) = "Success" ∧
         ∀ stage e, EvStageFailed stage e ∉ events (run E p self w)) ∨
  (∃ stage e, EvStageFailed stage e ∈ events (run E p self w) ∧
              result (run E p self w) = Raise e ∧
              failed_stage (stats (self_of (run E p self w))) = stage).
Proof.
  intros Hrel.
  remember (run E p self w) as o eqn:Ho.
  destruct self as [name st0 stats0], w as [f0 w0 n].
  run_exec Ho;
    try match goal with
        | H : audit_fault E ?a = Some _ |- _ => rewrite Hrel in H; discriminate
        end.
  all: subst o; simpl; repeat (rewrite <- app_assoc; simpl).
  all: repeat match goal with
           | H : load_all _ _ _ = _ |- _ => apply load_all_calls in H
           | H : audit_fault _ _ = _ |- _ => clear H
           end.
  all: first
    [ right; eexists _, _; split; [solve_in | split; reflexivity]
    | left; eexists; repeat split;
      intros stage e' Hin; split_in Hin; try discriminate; absurd_call Hin ].
Qed.

(** When [mkdir] returns: no regular file is in the way and the system
    refuses none of the directories that are missing. *)
Lemma make_dirs_returns p qs : ∀ fs,
  NoDup qs →
  (is_ok (make_dirs p qs fs).1 = true ↔
   ∀ q, q ∈ qs → nodes fs !! q = Some Dir ∨
                 (nodes fs !! q = None ∧ refused fs q = None)).
Proof.
  induction qs as [|q0 qs IH]; intros fs Hnd; simpl.
  - split; [|done]. intros _ q Hq. by apply elem_of_nil in Hq.
  - apply NoDup_cons in Hnd as [Hq0 Hnd].
    destruct (nodes fs !! q0) as [[|rr]|] eqn:Hn.
    + rewrite (IH fs Hnd). split.
      * intros H q Hq. apply elem_of_cons in Hq as [->|Hq]; [by left|by apply H].
      * intros H q Hq. apply H. by right.
    + split.
      * destruct (String.eqb q0 p); discriminate.
      * intros H. destruct (H q0) as [?|[? _]]; [by left|congruence..].
    + destruct (refused fs q0) as [e|] eqn:Hr.
      * split; [discriminate|].
        intros H. destruct (H q0) as [?|[_ ?]]; [by left|congruence..].
      * rewrite (IH _ Hnd). simpl. split.
        -- intros H q Hq. apply elem_of_cons in Hq as [->|Hq]; [by right|].
           specialize (H q Hq). rewrite lookup_insert_ne in H by (intros ->; done).
           exact H.
        -- intros H q Hq. rewrite lookup_insert_ne by (intros ->; done).
           apply H. by right.
Qed.

End Stages.

(** ** The transform and load stages, value by value *)

Ltac name_cases name :=
  destruct (String.eqb_spec name "sales") as [->|?];
  [|destruct (String.eqb_spec name "customers") as [->|?];
    [|destruct (String.eqb_spec name "products") as [->|?];
      [|destruct (String.eqb_spec name "sales_reps") as [->|?]]]].

Ltac four_datasets E raw :=
  destruct (dict_get "sales" raw) as [d1|] eqn:G1;
  [destruct (transform_sales_data E d1) as [t1|x1] eqn:T1|];
  (destruct (dict_get "customers" raw) as [d2|] eqn:G2;
  [destruct (transform_customer_data E d2) as [t2|x2] eqn:T2|]);
  (destruct (dict_get "products" raw) as [d3|] eqn:G3;
  [destruct (transform_product_data E d3) as [t3|x3] eqn:T3|]);
  (destruct (dict_get "sales_reps" raw) as [d4|] eqn:G4;
  [destruct (transform_sales_rep_data E d4) as [t4|x4] eqn:T4|]).

(** The adapters called before the failing one had returned. *)
Ltac called_ok :=
  let k := fresh "k" in
  let Hk := fresh "Hk" in
  intros k Hk;
  repeat (apply elem_of_cons in Hk as [->|Hk]);
  try (by apply elem_of_nil in Hk);
  eexists _, _; (split; [reflexivity|]); (split; [eassumption|]);
  match goal with
  | H : ?f ?d = Ok _ |- is_ok (?f ?d) = true => by rewrite H
  end.

Ltac failing_at called name :=
  exists called, name; eexists _, _, _;
  (split; [reflexivity|]); (split; [reflexivity|]);
  (split; [eassumption|]); (split; [eassumption|]);
  (split; [called_ok|]); by repeat split.

Section StagesMore.
Context {Wh : Type} (E : Env Wh).

(** X7: the mapping [_transform] returns holds, under each name,
    exactly what the adapter of that name returned for the extracted
    dataset of that name; the stage records the number of rows and the
    names of what it returns, and touches neither files nor warehouse. *)
Theorem _transform_values raw self (w : World Wh) td :
  result (_transform E raw self w) = Ok td →
  (∀ name df', dict_get name td = Some df' ↔
               ∃ f df, adapter_of E name = Some f ∧
                       dict_get name raw = Some df ∧ f df = Ok df') ∧
  transform (stats (self_of (_transform E raw self w))) =
    mkStage "Success" (total_len td) (Some (dict_keys td)) ∧
  world_of (_transform E raw self w) = w.
Proof.
  rewrite _transform_out. unfold transform_all, transform_one.
  four_datasets E raw; simpl; try discriminate; intros [= <-];
    (split; [|split; reflexivity]); intros name df'; unfold adapter_of;
    name_cases name; simpl;
    rewrite ?(proj2 (String.eqb_neq _ _)) by assumption;
    (split;
     [ first [ discriminate | intros [= <-]; eauto 10 ]
     | intros (f & df & Hf & Hg & Hr); try discriminate Hf;
       injection Hf as <-; congruence ]).
Qed.

(** X8: [_transform] stops at the first adapter that raises: the
    adapters of the datasets present are called in the order sales,
    customers, products, sales_reps up to and including the failing
    one, those called before it had returned, none is called after it,
    the exception raised is the adapter's, and the stage keeps its
    record count and sets its status to Failed. *)
Theorem _transform_stops_at_first_failure raw self (w : World Wh) e :
  result (_transform E raw self w) = Raise e →
  ∃ called name rest f df,
    present known_datasets raw = called ++ name :: rest ∧
    adapter_of E name = Some f ∧ dict_get name raw = Some df ∧ f df = Raise e ∧
    (∀ k, k ∈ called →
          ∃ g d, adapter_of E k = Some g ∧ dict_get k raw = Some d ∧ is_ok (g d) = true) ∧
    events (_transform E raw self w) =
      EvEnter "Transform" :: (EvTransform <$> (called ++ [name]))
        ++ [EvStageFailed "Transform" e] ∧
    stats (self_of (_transform E raw self w)) =
      set_transform (with_status "Failed") (stats self) ∧
    world_of (_transform E raw self w) = w.
Proof.
  rewrite _transform_out.
  unfold transform_all, transform_one, present, known_datasets.
  cbn [List.filter]. unfold dict_in.
  four_datasets E raw; simpl; try discriminate; intros [= <-].
  all: first
    [ failing_at (@nil string) "sales"
    | failing_at ["sales"] "customers"
    | failing_at (@nil string) "customers"
    | failing_at ["sales"; "customers"] "products"
    | failing_at ["sales"] "products"
    | failing_at ["customers"] "products"
    | failing_at (@nil string) "products"
    | failing_at ["sales"; "customers"; "products"] "sales_reps"
    | failing_at ["sales"; "customers"] "sales_reps"
    | failing_at ["sales"; "products"] "sales_reps"
    | failing_at ["customers"; "products"] "sales_reps"
    | failing_at ["sales"] "sales_reps"
    | failing_at ["customers"] "sales_reps"
    | failing_at ["products"] "sales_reps"
    | failing_at (@nil string) "sales_reps" ].
Qed.

(** X9: the result of [_load] is the counts [load_dimension_tables]
    returned, with the count of [load_fact_sales] under sales when sales
    data is present; the fact loader works on the warehouse the
    dimension loader left, and the stage records the sum of the counts
    and their names. *)
Theorem _load_results td self (w : World Wh) lr :
  result (_load E td self w) = Ok lr →
  ∃ dr w1,
    (dimension_part td = [] ∧ dr = [] ∧ w1 = wh w ∨
     dimension_part td ≠ [] ∧
     load_dimension_tables E (dimension_part td) (wh w) = (Ok dr, w1)) ∧
    match dict_get "sales" td with
    | Some df =>
        ∃ k, load_fact_sales E df w1 = (Ok k, wh (world_of (_load E td self w))) ∧
             lr = dict_set "sales" k (dict_update [] dr)
    | None => lr = dict_update [] dr ∧ wh (world_of (_load E td self w)) = w1
    end ∧
    load (stats (self_of (_load E td self w))) =
      mkStage "Success" (sum (dict_values lr)) (Some (dict_keys lr)).
Proof.
  rewrite _load_out. unfold load_all, load_dims_part.
  destruct (dimension_part td) as [|kv dd] eqn:Hd.
  - destruct (dict_get "sales" td) as [df|].
    + destruct (load_fact_sales E df (wh w)) as [[k|e'] w2] eqn:Hf; [|discriminate].
      intros [= <-]. exists [], (wh w). split; [by left|]. split; [|reflexivity].
      exists k. by rewrite Hf.
    + intros [= <-]. exists [], (wh w). split; [by left|]. by repeat split.
  - destruct (load_dimension_tables E (kv :: dd) (wh w)) as [[dr|e'] w1] eqn:Hl; [|discriminate].
    destruct (dict_get "sales" td) as [df|].
    + destruct (load_fact_sales E df w1) as [[k|e'] w2] eqn:Hf; [|discriminate].
      intros [= <-]. exists dr, w1. split; [by right|]. split; [|reflexivity].
      exists k. by rewrite Hf.
    + intros [= <-]. exists dr, w1. split; [by right|]. by repeat split.
Qed.

(** X10: a failing [_load] undoes nothing: when the dimension loader
    raises, the fact loader is not called and the warehouse is as the
    dimension loader left it; when the fact loader raises, the
    warehouse is as the fact loader left the one it got from the
    dimension loader, so the dimensions loaded stay loaded; either way
    the exception is the loader's and the status is Failed. *)
Theorem _load_failure_is_not_undone td self (w : World Wh) e :
  result (_load E td self w) = Raise e →
  load (stats (self_of (_load E td self w))) = with_status "Failed" (load (stats self)) ∧
  ((dimension_part td ≠ [] ∧
    load_dimension_tables E (dimension_part td) (wh w) =
      (Raise e, wh (world_of (_load E td self w))) ∧
    EvLoadFact ∉ events (_load E td self w)) ∨
   (∃ df w1,
      dict_get "sales" td = Some df ∧
      (dimension_part td = [] ∧ w1 = wh w ∨
       dimension_part td ≠ [] ∧
       ∃ dr, load_dimension_tables E (dimension_part td) (wh w) = (Ok dr, w1)) ∧
      load_fact_sales E df w1 = (Raise e, wh (world_of (_load E td self w))))).
Proof.
  rewrite _load_out. unfold load_all, load_dims_part.
  destruct (dimension_part td) as [|kv dd] eqn:Hd.
  - destruct (dict_get "sales" td) as [df|]; [|discriminate].
    destruct (load_fact_sales E df (wh w)) as [[k|e'] w2] eqn:Hf; [discriminate|].
    intros [= <-]. split; [reflexivity|]. right. exists df, (wh w).
    split; [done|]. split; [by left|]. exact Hf.
  - destruct (load_dimension_tables E (kv :: dd) (wh w)) as [[dr|e'] w1] eqn:Hl.
    + destruct (dict_get "sales" td) as [df|]; [|discriminate].
      destruct (load_fact_sales E df w1) as [[k|e'] w2] eqn:Hf; [discriminate|].
      intros [= <-]. split; [reflexivity|]. right. exists df, w1.
      split; [done|]. split; [right; split; [done|by exists dr]|]. exact Hf.
    + intros [= <-]. split; [reflexivity|]. left. split; [done|]. split; [done|].
      simpl. intros Hin. split_in Hin; discriminate.
Qed.
End StagesMore.

(** ** The warehouse is loaded idempotently *)

Module WarehouseFacts.
Import Warehouse.

(** *** Dimension rows *)

Lemma is_dim_true table key r :
  is_dim table key r = true ↔ d_table r = table ∧ d_key r = key.
Proof.
  unfold is_dim. rewrite andb_true_iff, !String.eqb_eq. done.
Qed.

Lemma lookup_assignments (rs rs' : list DimRow) table key :
  (fun r => (d_table r, d_key r, d_id r)) <$> rs =
  (fun r => (d_table r, d_key r, d_id r)) <$> rs' →
  d_id <$> find_dim table key rs = d_id <$> find_dim table key rs'.
Proof.
  revert rs'. induction rs as [|r rs IH]; intros [|r' rs'] H; try discriminate; [done|].
  injection H as Ht Hk Hi Hrest. simpl.
  unfold is_dim. rewrite Ht, Hk.
  destruct (_ && _); simpl; [by rewrite Hi | by apply IH].
Qed.

Lemma lookupSurrogate_assignments w w' table key :
  assignments w = assignments w' →
  lookupSurrogate w table key = lookupSurrogate w' table key.
Proof. apply lookup_assignments. Qed.

Lemma assignments_overwrite table key attrs rs :
  (fun r => (d_table r, d_key r, d_id r)) <$> overwrite table key attrs rs =
  (fun r => (d_table r, d_key r, d_id r)) <$> rs.
Proof.
  induction rs as [|r rs IH]; [done|]. simpl.
  destruct (is_dim table key r) eqn:Hd; simpl.
  - apply is_dim_true in Hd as [<- <-]. done.
  - f_equal. exact IH.
Qed.

Lemma find_dim_app table key rs r :
  find_dim table key (rs ++ [r]) =
  match find_dim table key rs with
  | Some x => Some x
  | None => if is_dim table key r then Some r else None
  end.
Proof.
  induction rs as [|r' rs IH]; simpl; [done|].
  destruct (is_dim table key r'); done.
Qed.

Lemma known_assignments w w' table key :
  assignments w = assignments w' → known w table key → known w' table key.
Proof. unfold known. intros H. by rewrite (lookupSurrogate_assignments _ _ _ _ H). Qed.

Lemma upsert_facts table key attrs w :
  fact_rows (upsertByNaturalKey table key attrs w).2 = fact_rows w.
Proof. unfold upsertByNaturalKey. by destruct (lookupSurrogate w table key). Qed.

Lemma upsert_known table key attrs w :
  known (upsertByNaturalKey table key attrs w).2 table key.
Proof.
  unfold known, upsertByNaturalKey.
  destruct (lookupSurrogate w table key) as [i|] eqn:Hl; simpl.
  - unfold lookupSurrogate in *. simpl.
    rewrite (lookup_assignments _ (dim_rows w)) by apply assignments_overwrite.
    rewrite Hl. eauto.
  - unfold lookupSurrogate in *. simpl. rewrite find_dim_app.
    destruct (find_dim table key (dim_rows w)); [eauto|].
    unfold is_dim. simpl. rewrite !String.eqb_refl. simpl. eauto.
Qed.

Lemma upsert_mono table key attrs w table' key' :
  known w table' key' → known (upsertByNaturalKey table key attrs w).2 table' key'.
Proof.
  unfold known, upsertByNaturalKey. intros [i Hi].
  destruct (lookupSurrogate w table key) as [j|] eqn:Hl; simpl.
  - unfold lookupSurrogate in *. simpl.
    rewrite (lookup_assignments _ (dim_rows w)) by apply assignments_overwrite.
    rewrite Hi. eauto.
  - unfold lookupSurrogate in *. simpl. rewrite find_dim_app.
    destruct (find_dim table' key' (dim_rows w)); [eauto | discriminate].
Qed.

Lemma upsert_found table key attrs w :
  known w table key →
  assignments (upsertByNaturalKey table key attrs w).2 = assignments w.
Proof.
  unfold known, upsertByNaturalKey. intros [i Hi]. rewrite Hi. simpl.
  apply assignments_overwrite.
Qed.

Lemma load_dimension_facts name krs w :
  fact_rows (load_dimension name krs w) = fact_rows w.
Proof.
  unfold load_dimension. revert w. induction krs as [|kr krs IH]; intros w; [done|].
  simpl. rewrite IH. apply upsert_facts.
Qed.

Lemma load_dimension_mono name krs w table key :
  known w table key → known (load_dimension name krs w) table key.
Proof.
  unfold load_dimension. revert w. induction krs as [|kr krs IH]; intros w Hk; [done|].
  simpl. apply IH. by apply upsert_mono.
Qed.

Lemma load_dimension_known name krs w kr :
  kr ∈ krs → known (load_dimension name krs w) name kr.1.
Proof.
  unfold load_dimension. revert w. induction krs as [|kr' krs IH]; intros w Hin.
  - by apply elem_of_nil in Hin.
  - simpl. apply elem_of_cons in Hin as [->|Hin].
    + apply (load_dimension_mono name krs). apply upsert_known.
    + by apply IH.
Qed.

Lemma load_dimension_found name krs w :
  (∀ kr, kr ∈ krs → known w name kr.1) →
  assignments (load_dimension name krs w) = assignments w.
Proof.
  unfold load_dimension. revert w. induction krs as [|kr krs IH]; intros w Hall; [done|].
  simpl.
  assert (assignments (upsertByNaturalKey name kr.1 kr.2 w).2 = assignments w) as Heq.
  { apply upsert_found, Hall. apply elem_of_cons. by left. }
  rewrite IH; [exact Heq|].
  intros kr' Hin. apply (known_assignments w); [done|].
  apply Hall. apply elem_of_cons. by right.
Qed.

Lemma load_batches_facts batches w :
  fact_rows (load_batches batches w) = fact_rows w.
Proof.
  unfold load_batches. revert w. induction batches as [|b bs IH]; intros w; [done|].
  simpl. rewrite IH. apply load_dimension_facts.
Qed.

Lemma load_batches_mono batches w table key :
  known w table key → known (load_batches batches w) table key.
Proof.
  unfold load_batches. revert w. induction batches as [|b bs IH]; intros w Hk; [done|].
  simpl. apply IH. by apply load_dimension_mono.
Qed.

Lemma load_batches_known batches w b kr :
  b ∈ batches → kr ∈ b.2 → known (load_batches batches w) b.1 kr.1.
Proof.
  unfold load_batches. revert w. induction batches as [|b' bs IH]; intros w Hb Hkr.
  - by apply elem_of_nil in Hb.
  - simpl. apply elem_of_cons in Hb as [->|Hb].
    + apply (load_batches_mono bs). by apply load_dimension_known.
    + by apply IH.
Qed.

Lemma load_batches_found batches w :
  (∀ b kr, b ∈ batches → kr ∈ b.2 → known w b.1 kr.1) →
  assignments (load_batches batches w) = assignments w.
Proof.
  unfold load_batches. revert w. induction batches as [|b bs IH]; intros w Hall; [done|].
  simpl.
  assert (assignments (load_dimension b.1 b.2 w) = assignments w) as Heq.
  { apply load_dimension_found. intros kr Hkr. apply Hall; [|done].
    apply elem_of_cons. by left. }
  rewrite IH; [exact Heq|].
  intros b' kr Hb Hkr. apply (known_assignments w); [done|].
  apply Hall; [|done]. apply elem_of_cons. by right.
Qed.

(** *** Fact rows *)

Lemma orders_upsert_in f fs :
  f_order f ∈ f_order <$> fs → f_order <$> upsert_fact f fs = f_order <$> fs.
Proof.
  induction fs as [|g fs IH]; intros Hin.
  - by apply elem_of_nil in Hin.
  - simpl. destruct (String.eqb_spec (f_order g) (f_order f)) as [Heq|Hne]; simpl.
    + by rewrite Heq.
    + f_equal. apply IH. simpl in Hin. apply elem_of_cons in Hin as [?|?]; [congruence|done].
Qed.

Lemma orders_upsert_notin f fs :
  f_order f ∉ f_order <$> fs →
  f_order <$> upsert_fact f fs = (f_order <$> fs) ++ [f_order f].
Proof.
  induction fs as [|g fs IH]; intros Hnin; [done|].
  simpl. simpl in Hnin. apply not_elem_of_cons in Hnin as [Hne Hnin].
  destruct (String.eqb_spec (f_order g) (f_order f)) as [Heq|_]; [congruence|].
  simpl. f_equal. by apply IH.
Qed.

Lemma orders_upsert_self f fs : f_order f ∈ f_order <$> upsert_fact f fs.
Proof.
  destruct (decide (f_order f ∈ f_order <$> fs)) as [Hin|Hnin].
  - by rewrite orders_upsert_in.
  - rewrite orders_upsert_notin by done. apply elem_of_app. right.
    apply elem_of_cons. by left.
Qed.

Lemma orders_upsert_mono f fs o :
  o ∈ f_order <$> fs → o ∈ f_order <$> upsert_fact f fs.
Proof.
  intros Ho. destruct (decide (f_order f ∈ f_order <$> fs)) as [Hin|Hnin].
  - by rewrite orders_upsert_in.
  - rewrite orders_upsert_notin by done. apply elem_of_app. by left.
Qed.

Lemma orders_upsert_NoDup f fs :
  NoDup (f_order <$> fs) → NoDup (f_order <$> upsert_fact f fs).
Proof.
  intros Hnd. destruct (decide (f_order f ∈ f_order <$> fs)) as [Hin|Hnin].
  - by rewrite orders_upsert_in.
  - rewrite orders_upsert_notin by done. apply NoDup_app. split; [done|].
    split; [|apply NoDup_singleton].
    intros o Ho Ho'. apply elem_of_cons in Ho' as [->|Ho']; [done|].
    by apply elem_of_nil in Ho'.
Qed.

Lemma write_facts_mono resolved fs o :
  o ∈ f_order <$> fs → o ∈ f_order <$> write_facts resolved fs.
Proof.
  unfold write_facts. revert fs.
  induction resolved as [|f R IH]; intros fs Ho; [done|].
  simpl. apply IH. by apply orders_upsert_mono.
Qed.

Lemma write_facts_self resolved fs f :
  f ∈ resolved → f_order f ∈ f_order <$> write_facts resolved fs.
Proof.
  unfold write_facts. revert fs.
  induction resolved as [|g R IH]; intros fs Hin.
  - by apply elem_of_nil in Hin.
  - simpl. apply elem_of_cons in Hin as [->|Hin].
    + apply (write_facts_mono R). apply orders_upsert_self.
    + by apply IH.
Qed.

Lemma write_facts_same resolved fs :
  (∀ f, f ∈ resolved → f_order f ∈ f_order <$> fs) →
  f_order <$> write_facts resolved fs = f_order <$> fs.
Proof.
  unfold write_facts. revert fs.
  induction resolved as [|g R IH]; intros fs Hall; [done|].
  simpl.
  assert (f_order <$> upsert_fact g fs = f_order <$> fs) as Heq.
  { apply orders_upsert_in, Hall. apply elem_of_cons. by left. }
  rewrite IH; [exact Heq|].
  intros f Hf. rewrite Heq. apply Hall. apply elem_of_cons. by right.
Qed.

Lemma write_facts_NoDup resolved fs :
  NoDup (f_order <$> fs) → NoDup (f_order <$> write_facts resolved fs).
Proof.
  unfold write_facts. revert fs.
  induction resolved as [|g R IH]; intros fs Hnd; [done|].
  simpl. apply IH. by apply orders_upsert_NoDup.
Qed.

Lemma filter_order_none (fs : list FactRow) o :
  o ∉ f_order <$> fs → filter (fun f => f_order f = o) fs = [].
Proof.
  induction fs as [|g fs IH]; intros Hnin; [done|].
  simpl in Hnin. apply not_elem_of_cons in Hnin as [Hne Hnin].
  rewrite filter_cons_False by congruence. by apply IH.
Qed.

Lemma count_one (fs : list FactRow) o :
  NoDup (f_order <$> fs) → o ∈ f_order <$> fs →
  length (filter (fun f => f_order f = o) fs) = 1%nat.
Proof.
  induction fs as [|g fs IH]; intros Hnd Hin.
  - by apply elem_of_nil in Hin.
  - simpl in Hnd, Hin. apply NoDup_cons in Hnd as [Hg Hnd].
    rewrite filter_cons. destruct (decide (f_order g = o)) as [<-|Hne].
    + simpl. f_equal. by rewrite filter_order_none.
    + apply IH; [done|]. apply elem_of_cons in Hin as [?|?]; [congruence|done].
Qed.

(** *** Resolution only looks at the surrogate-key assignments *)

Lemma resolve_assignments df w w' r :
  assignments w = assignments w' → resolve df w r = resolve df w' r.
Proof.
  intros H. unfold resolve.
  destruct (cell df r "order_number"); simpl; [|done].
  destruct (cell df r "customer_code"); simpl; [|done].
  rewrite (lookupSurrogate_assignments w w' _ _ H).
  destruct (lookupSurrogate w' "customers" _); simpl; [|done].
  destruct (cell df r "product_code"); simpl; [|done].
  rewrite (lookupSurrogate_assignments w w' _ _ H).
  destruct (lookupSurrogate w' "products" _); simpl; [|done].
  destruct (cell df r "rep_code"); simpl; [|done].
  rewrite (lookupSurrogate_assignments w w' _ _ H).
  destruct (lookupSurrogate w' "sales_reps" _); simpl; [|done].
  destruct (cell df r "order_date"); simpl; [|done].
  by rewrite (lookupSurrogate_assignments w w' _ _ H).
Qed.

Lemma resolved_assignments df w w' :
  assignments w = assignments w' →
  omap (resolve df w) (rows df) = omap (resolve df w') (rows df).
Proof.
  intros H. induction (rows df) as [|r rs IH]; [done|].
  simpl. rewrite (resolve_assignments df w w' r H).
  destruct (resolve df w' r); [f_equal|]; exact IH.
Qed.

(** *** The load stage over the warehouse, once and twice *)

Lemma facts_step_assignments td w : assignments (facts_step td w) = assignments w.
Proof. unfold facts_step. by destruct (dict_get "sales" td). Qed.

Lemma facts_step_orders td w w' :
  assignments w = assignments w' →
  orders (facts_step td w') =
  match dict_get "sales" td with
  | Some df => f_order <$> write_facts (omap (resolve df w) (rows df)) (fact_rows w')
  | None => orders w'
  end.
Proof.
  intros H. unfold facts_step, orders. destruct (dict_get "sales" td) as [df|]; [|done].
  simpl. by rewrite (resolved_assignments df w w' H).
Qed.

Lemma load_twice td batches w :
  let w1 := facts_step td (load_batches batches w) in
  let w2 := facts_step td (load_batches batches w1) in
  assignments w2 = assignments w1 ∧
  orders w2 = orders w1 ∧
  (NoDup (orders w) → NoDup (orders w2)).
Proof.
  intros w1 w2.
  assert (assignments w1 = assignments (load_batches batches w)) as Ha1
    by apply facts_step_assignments.
  assert (assignments (load_batches batches w1) = assignments w1) as Hd2.
  { apply load_batches_found. intros b kr Hb Hkr.
    apply (known_assignments (load_batches batches w)); [done|].
    by apply load_batches_known. }
  assert (assignments w2 = assignments w1) as Ha2.
  { unfold w2. by rewrite facts_step_assignments. }
  split; [exact Ha2|].
  assert (fact_rows (load_batches batches w1) = fact_rows w1) as Hf2
    by apply load_batches_facts.
  assert (orders w1 =
          match dict_get "sales" td with
          | Some df => f_order <$> write_facts
                         (omap (resolve df (load_batches batches w)) (rows df)) (fact_rows w)
          | None => orders w
          end) as Ho1.
  { unfold w1. rewrite (facts_step_orders td (load_batches batches w)) by done.
    unfold orders. by rewrite load_batches_facts. }
  assert (orders w2 =
          match dict_get "sales" td with
          | Some df => f_order <$> write_facts
                         (omap (resolve df (load_batches batches w)) (rows df)) (fact_rows w1)
          | None => orders w1
          end) as Ho2.
  { unfold w2. rewrite (facts_step_orders td (load_batches batches w)).
    - unfold orders. by rewrite Hf2.
    - by rewrite Hd2, Ha1. }
  assert (orders w2 = orders w1) as Hoo.
  { rewrite Ho2. destruct (dict_get "sales" td) as [df|] eqn:Hs; [|done].
    apply write_facts_same. intros f Hf.
    change (f_order <$> fact_rows w1) with (orders w1). rewrite Ho1.
    by apply write_facts_self. }
  split; [exact Hoo|].
  intros Hnd. rewrite Hoo, Ho1.
  destruct (dict_get "sales" td); [by apply write_facts_NoDup | done].
Qed.
End WarehouseFacts.

Lemma extract_sales_data_again p fs raw fs' :
  extract_sales_data p fs = (Ok raw, fs') → extract_sales_data p fs' = (Ok raw, fs').
Proof.
  unfold extract_sales_data, DataExtractor_init. intros H.
  destruct (mkdir p fs) as [[[]|e] fs1] eqn:Hmk; [|discriminate].
  assert (fs' = fs1) as ->.
  { match type of H with
    | match ?b with _ => _ end = _ => destruct b; inversion H; subst; reflexivity
    end. }
  rewrite (mkdir_again _ _ _ _ Hmk). exact H.
Qed.

Section RunOk.
Context {Wh : Type} (E : Env Wh).

Lemma run_ok_inv p self (w : World Wh) :
  is_ok (result (run E p self w)) = true →
  ∃ raw fs' td called lr wh' levs,
    extract_sales_data p (fs w) = (Ok raw, fs') ∧
    transform_all E raw = (Ok td, called) ∧
    load_all E td (wh w) = (Ok lr, wh', levs) ∧
    fs (world_of (run E p self w)) = fs' ∧
    wh (world_of (run E p self w)) = wh'.
Proof.
  remember (run E p self w) as o eqn:Ho. intros Hok.
  destruct self as [name st0 stats0], w as [f0 w0 n].
  run_exec Ho; subst o; simpl in Hok; try discriminate.
  simpl. eauto 12.
Qed.
End RunOk.

Lemma load_all_warehouse_inv clk ts tc tp tr fault td w lr w1 levs :
  load_all (Warehouse.env clk ts tc tp tr fault) td w = (Ok lr, w1, levs) →
  ∃ batches,
    Warehouse.batches_of (dimension_part td) = Some batches ∧
    w1 = Warehouse.facts_step td (Warehouse.load_batches batches w).
Proof.
  unfold load_all, load_dims_part, Warehouse.env, Warehouse.facts_step. simpl.
  unfold Warehouse.load_dimension_tables.
  destruct (dimension_part td) as [|kv dd] eqn:Hdp.
  - intros H. exists []. split; [done|].
    destruct (dict_get "sales" td) as [df|]; simpl in *; by inversion H.
  - destruct (Warehouse.batches_of (kv :: dd)) as [batches|]; [|discriminate].
    intros H. exists batches. split; [done|].
    destruct (dict_get "sales" td) as [df|]; simpl in *; by inversion H.
Qed.

Import Warehouse WarehouseFacts.

Lemma facts_step_sales df w :
  facts_step [("sales", df)] w = (load_fact_sales df w).2.
Proof. reflexivity. Qed.

Lemma orders_length w w' :
  orders w = orders w' → length (fact_rows w) = length (fact_rows w').
Proof.
  intros H. apply (f_equal length) in H. unfold orders in H.
  by rewrite !length_fmap in H.
Qed.

(** C2: with the loaders of the specification, a second run of the
    pipeline over the same source, after a first one, leaves the
    dimension tables with the same surrogate-key assignments, the list
    of (table, natural key, surrogate key) being the same with no row
    added, so that every natural key resolves to the surrogate key it
    had, and leaves the fact table
    with the same order numbers, hence the same number of rows, each
    order number on file exactly once; and loading the same sales
    dataset twice with [load_fact_sales] leaves the row count of the
    first load and exactly one fact row for every order that resolves. *)
Theorem pipeline_rerun_idempotent clk ts tc tp tr fault p (w : World Warehouse.t) :
  let E := Warehouse.env clk ts tc tp tr fault in
  let o1 := run_pipeline E p w in
  let o2 := run_pipeline E p (world_of o1) in
  (is_ok (result o1) = true → is_ok (result o2) = true →
     assignments (wh (world_of o2)) = assignments (wh (world_of o1)) ∧
     (∀ table key, lookupSurrogate (wh (world_of o2)) table key =
                   lookupSurrogate (wh (world_of o1)) table key) ∧
     length (fact_rows (wh (world_of o2))) = length (fact_rows (wh (world_of o1))) ∧
     orders (wh (world_of o2)) = orders (wh (world_of o1)) ∧
     (NoDup (orders (wh w)) →
        ∀ o, o ∈ orders (wh (world_of o2)) → fact_count o (wh (world_of o2)) = 1%nat)) ∧
  (∀ df wx,
     let wa := (load_fact_sales df wx).2 in
     let wb := (load_fact_sales df wa).2 in
     length (fact_rows wb) = length (fact_rows wa) ∧
     (NoDup (orders wx) →
        ∀ r f, r ∈ rows df → resolve df wx r = Some f →
               fact_count (f_order f) wb = 1%nat)).
Proof.
  intros E o1 o2. split.
  - intros Hok1 Hok2. unfold o2, o1, run_pipeline in *.
    destruct (run_ok_inv E p _ w Hok1)
      as (raw & fs' & td & called & lr & wh' & levs & Hx & Ht & Hl & Hfs & Hwh).
    destruct (run_ok_inv E p _ _ Hok2)
      as (raw2 & fs2 & td2 & called2 & lr2 & wh2 & levs2 & Hx2 & Ht2 & Hl2 & _ & Hwh2).
    rewrite Hfs in Hx2. rewrite (extract_sales_data_again _ _ _ _ Hx) in Hx2.
    injection Hx2 as <- <-. rewrite Ht in Ht2. injection Ht2 as <- <-.
    rewrite Hwh in Hl2. rewrite Hwh, Hwh2.
    apply load_all_warehouse_inv in Hl as (B & HB & ->).
    apply load_all_warehouse_inv in Hl2 as (B2 & HB2 & ->).
    rewrite HB in HB2. injection HB2 as <-.
    destruct (load_twice td B (wh w)) as (Ha & Ho & Hnd).
    split; [exact Ha|].
    split; [intros table key; by apply lookupSurrogate_assignments|].
    split; [by apply orders_length|].
    split; [exact Ho|].
    intros Hw o Hin. apply count_one; [by apply Hnd | exact Hin].
  - intros df wx wa wb.
    destruct (load_twice [("sales", df)] [] wx) as (Ha & Ho & Hnd).
    change (load_batches [] wx) with wx in *.
    rewrite !facts_step_sales in *.
    change (load_batches [] (load_fact_sales df wx).2) with wa in *.
    fold wa in Ho, Ha, Hnd. fold wb in Ho, Ha, Hnd.
    split; [by apply orders_length|].
    intros Hw r f Hr Hres. apply count_one; [by apply Hnd|].
    change (f_order <$> fact_rows wb) with (orders wb). rewrite Ho.
    unfold wa, orders. simpl. apply write_facts_self.
    apply list_elem_of_omap. eauto.
Qed.

(** ** Concrete runs *)

(** Membership in a trace that evaluates to an explicit list. *)
Ltac in_by_compute :=
  apply list_elem_of_In; vm_compute;
  repeat (first [ left; reflexivity | right ]).

Ltac not_in_by_compute H :=
  apply list_elem_of_In in H; vm_compute in H;
  repeat (destruct H as [H|H]; [discriminate H|]); exact H.

Module Concrete.
Import Sample.

(** A run in which the customers adapter rejects its input: the stage
    failure is reported and the run does not return. *)
Lemma run_reports_stage_failure_witness :
  is_ok (result (run env_bad_customers "data/raw" fresh (world all_files))) = false.
Proof.
  destruct (run_reports_stage_failure env_bad_customers "data/raw" fresh
              (world all_files) "Transform"
              (Exn "ValidationError" "required fields absent" None))
    as (a & t & _ & _ & _ & _ & _ & _ & H & _).
  - in_by_compute.
  - exact H.
Defined.

(** C3 as stated fails when the exception comes from an audit call: the
    recorder raises on the Extract/Success record, the handler blames
    Transform, and Transform, never entered, gets a Failed record. *)
Lemma run_audit_incomplete_when_recorder_raises :
  ¬ audit_complete (events (run env_audit_fault "data/raw" fresh (world all_files))).
Proof.
  intros H. destruct (H "Transform") as [_ Hn].
  assert (stage_records "Transform"
            (events (run env_audit_fault "data/raw" fresh (world all_files))) = []) as Hnil.
  { apply Hn. intros Hin. unfold entered in Hin. not_in_by_compute Hin. }
  vm_compute in Hnil. discriminate Hnil.
Qed.

(** A full run over the sample files with a reliable recorder. *)
Lemma run_audit_complete_witness :
  audit_complete (events (run env_ok "data/raw" fresh (world all_files))).
Proof.
  apply (run_audit_complete env_ok "data/raw" fresh (world all_files)).
  intros a. reflexivity.
Defined.

(** C6 as stated fails: the data path names a regular file, [mkdir]
    raises FileExistsError in the Extract stage, and [run] raises that
    exception, which is no StageFailure and has no cause. *)
Lemma run_raises_the_cause_itself :
  ¬ fails_with_StageFailure (run env_ok "data/raw" fresh (world path_is_file)).
Proof.
  intros H.
  destruct (H "Extract" (oserror "FileExistsError" "17" "File exists" "data/raw"))
    as (e & He & Hc & _).
  - in_by_compute.
  - vm_compute in He. injection He as <-. vm_compute in Hc. discriminate Hc.
Qed.

(** The customers adapter raises ValidationError and [run] raises it. *)
Lemma run_returns_stats_or_reraises_witness :
  ∃ e, result (run env_bad_customers "data/raw" fresh (world all_files)) = Raise e ∧
       exn_class e = "ValidationError".
Proof.
  destruct (run_returns_stats_or_reraises env_bad_customers "data/raw" fresh
              (world all_files)) as [(st & Hst & _)|(stage & e & _ & He & _)].
  - intros a. reflexivity.
  - vm_compute in Hst. discriminate Hst.
  - exists e. split; [exact He|].
    vm_compute in He. injection He as <-. reflexivity.
Defined.





(** Extraction over a directory holding only two of the four files. *)
Lemma extract_sales_data_keys_witness :
  ∃ d fs', extract_sales_data "data/raw" some_files = (Ok d, fs') ∧
           ∀ k, k ∈ dict_keys d → k ∈ known_datasets.
Proof.
  destruct (extract_sales_data_keys "data/raw" some_files) as [H1 H2].
  destruct H2 as (d & fs' & Hd).
  - split; [reflexivity|].
    intros k file Hf Hex. apply source_file_cases in Hf.
    destruct Hf as [[-> ->]|[[-> ->]|[[-> ->]|[-> ->]]]];
      first [ reflexivity | vm_compute in Hex; discriminate Hex ].
  - exists d, fs'. split; [exact Hd|]. exact (proj1 (H1 d fs' Hd)).
Defined.


(** Transform and load over sales and customers only, and a run over
    an empty directory. *)
Lemma partial_sources_tolerated_witness :
  (∃ td', result (_transform env_ok partial fresh (world (no_files true))) = Ok td' ∧
          dict_keys td' = ["sales"; "customers"]) ∧
  (∃ lr, result (_load env_ok partial fresh (world (no_files true))) = Ok lr) ∧
  is_ok (result (run env_ok "data/raw" fresh (world (no_files true)))) = true.
Proof.
  destruct (partial_sources_tolerated env_ok "data/raw" partial partial fresh
              (world (no_files true))) as (Ha & Hb & Hc).
  split; [|split].
  - destruct Ha as (td' & Hr & Hk & _).
    + repeat split; intros df _; reflexivity.
    + exists td'. split; [exact Hr | exact Hk].
  - destruct Hb as (lr & Hr & _).
    + split; [intros w; reflexivity | intros df w _; reflexivity].
    + exists lr. exact Hr.
  - destruct Hc as (Hr & _).
    + intros a. reflexivity.
    + reflexivity.
    + rewrite Hr. reflexivity.
Defined.

(** Two runs in sequence over the sample files: ORD001, twice in the
    source, is on file once. *)
Lemma pipeline_rerun_idempotent_witness :
  Warehouse.fact_count "ORD001"
    (wh (world_of (run_pipeline env_ok "data/raw"
           (world_of (run_pipeline env_ok "data/raw" (world all_files)))))) = 1%nat.
Proof.
  destruct (pipeline_rerun_idempotent clk keep keep keep keep no_fault "data/raw"
              (world all_files)) as [H _].
  destruct H as (_ & _ & _ & _ & Hc).
  - vm_compute. reflexivity.
  - vm_compute. reflexivity.
  - apply Hc; [apply NoDup_nil_2 | in_by_compute].
Defined.
End Concrete.

(* ===================================================================== *)
(** * Further properties of the code *)
(* ===================================================================== *)

(** ** Extraction, file by file *)

Ltac four_files fs p :=
  destruct (path_exists fs (path_join p "sales_transactions.csv")) eqn:E1;
  [destruct (read_csv fs (path_join p "sales_transactions.csv")) eqn:R1|];
  (destruct (path_exists fs (path_join p "customers.csv")) eqn:E2;
  [destruct (read_csv fs (path_join p "customers.csv")) eqn:R2|]);
  (destruct (path_exists fs (path_join p "products.csv")) eqn:E3;
  [destruct (read_csv fs (path_join p "products.csv")) eqn:R3|]);
  (destruct (path_exists fs (path_join p "sales_reps.csv")) eqn:E4;
  [destruct (read_csv fs (path_join p "sales_reps.csv")) eqn:R4|]).

(** The files read before the failing one had been parsed. *)
Ltac before_ok :=
  let k' := fresh "k" in
  let file' := fresh "file" in
  let Hk := fresh "Hk" in
  let Hf := fresh "Hf" in
  let Hex := fresh "Hex" in
  intros k' file' Hk Hf Hex;
  repeat (apply elem_of_cons in Hk as [->|Hk]);
  try (by apply elem_of_nil in Hk);
  vm_compute in Hf; injection Hf as <-;
  first [ congruence
        | match goal with
          | H : read_csv _ ?q = Ok _ |- is_ok (read_csv _ ?q) = true => by rewrite H
          end ].

Lemma read_csv_ok_exists fs q df : read_csv fs q = Ok df → path_exists fs q = true.
Proof.
  unfold read_csv, path_exists. destruct (nodes fs !! q) as [[|r]|]; done.
Qed.

Lemma extract_sales_data_mkdir (p : string) (fs : FS) r fs' :
  extract_sales_data p fs = (r, fs') →
  fs' = (mkdir p fs).2 ∧ (is_ok r = true → (mkdir p fs).1 = Ok tt).
Proof.
  unfold extract_sales_data, DataExtractor_init.
  destruct (mkdir p fs) as [[[]|e] fs1]; cbn [fst snd].
  - intros H. split; [|done].
    match type of H with
    | match ?b with _ => _ end = _ => destruct b; by inversion H
    end.
  - intros [= <- <-]. split; [done|discriminate].
Qed.

Lemma extract_sales_data_frame (p : string) (fs : FS) r fs' :
  extract_sales_data p fs = (r, fs') →
  refused fs' = refused fs ∧
  ∀ x, nodes fs' !! x = nodes fs !! x ∨
       (x ∈ path_chain p ∧ nodes fs !! x = None ∧ nodes fs' !! x = Some Dir).
Proof.
  intros H. apply extract_sales_data_mkdir in H as [-> _].
  destruct (mkdir p fs) as [r1 fs1] eqn:Hmk. by apply (mkdir_frame _ _ _ _ Hmk).
Qed.

(** Why [mkdir] raises: a regular file is in the way, or the system
    refuses a directory that is missing. *)
Lemma make_dirs_raises p qs : ∀ fs e fs',
  NoDup qs →
  make_dirs p qs fs = (Raise e, fs') →
  ∃ q, q ∈ qs ∧
       ((∃ r, nodes fs !! q = Some (File r)) ∨
        (nodes fs !! q = None ∧ refused fs q = Some e)).
Proof.
  induction qs as [|q0 qs IH]; intros fs e fs' Hnd; simpl; [discriminate|].
  apply NoDup_cons in Hnd as [Hq0 Hnd].
  destruct (nodes fs !! q0) as [[|rr]|] eqn:Hn.
  - intros H. destruct (IH _ _ _ Hnd H) as (q & Hq & Hwhy).
    exists q. split; [by right|done].
  - intros _. exists q0. split; [by left|]. left. by exists rr.
  - destruct (refused fs q0) as [e0|] eqn:Hr.
    + intros [= <- <-]. exists q0. split; [by left|]. by right.
    + intros H. destruct (IH _ _ _ Hnd H) as (q & Hq & Hwhy).
      exists q. split; [by right|].
      simpl in Hwhy. rewrite lookup_insert_ne in Hwhy by (intros ->; done). exact Hwhy.
Qed.

(** X1: when [DataExtractor.__init__] returns, the data path is the
    path given, and it and every directory above it exist as
    directories; when it raises, a regular file is in the way, at the
    path or above it, or the system refused to make a directory that
    was missing, and then the exception is that refusal; either way
    nothing that existed has changed: what differs afterwards are
    directories on the way to the path that were missing before. *)
Theorem DataExtractor_init_creates_path (p : string) (fs : FS) :
  match DataExtractor_init p fs with
  | (Ok extractor, fs') =>
      data_path extractor = p ∧
      ∀ q, q ∈ path_chain p → nodes fs' !! q = Some Dir
  | (Raise e, fs') =>
      ∃ q, q ∈ path_chain p ∧
           ((∃ r, nodes fs !! q = Some (File r)) ∨
            (nodes fs !! q = None ∧ refused fs q = Some e))
  end ∧
  refused (DataExtractor_init p fs).2 = refused fs ∧
  ∀ x, nodes (DataExtractor_init p fs).2 !! x = nodes fs !! x ∨
       (x ∈ path_chain p ∧ nodes fs !! x = None ∧
        nodes (DataExtractor_init p fs).2 !! x = Some Dir).
Proof.
  unfold DataExtractor_init.
  destruct (mkdir p fs) as [[[]|e] fs1] eqn:Hmk; cbn [snd].
  - split; [|by apply (mkdir_frame _ _ _ _ Hmk)].
    split; [done|]. intros q Hq. by apply (make_dirs_ok _ _ _ _ Hmk).
  - split; [|by apply (mkdir_frame _ _ _ _ Hmk)].
    by apply (make_dirs_raises _ _ _ _ _ (path_chain_NoDup p) Hmk).
Qed.

(** X2: the mapping [extract_sales_data] returns holds, under each
    name, exactly what [pd.read_csv] gives for the file of that name,
    and its keys are the names whose file exists, in the order sales,
    customers, products, sales_reps. *)
Theorem extract_sales_data_values (p : string) (fs : FS) d fs' :
  extract_sales_data p fs = (Ok d, fs') →
  (∀ k df, dict_get k d = Some df ↔
           ∃ file, source_file k = Some file ∧ read_csv fs (path_join p file) = Ok df) ∧
  dict_keys d =
    List.filter (fun k => match source_file k with
                          | Some file => path_exists fs (path_join p file)
                          | None => false
                          end) known_datasets.
Proof.
  unfold extract_sales_data, DataExtractor_init, extract_csv.
  destruct (mkdir p fs) as [[[]|e] fs1] eqn:Hmk; simpl; [|discriminate].
  rewrite !(path_exists_mkdir _ _ _ _ Hmk), !(read_csv_mkdir _ _ _ _ Hmk).
  intros H. split.
  - intros k df. setoid_rewrite source_file_cases.
    four_files fs p; simpl in H; try discriminate;
      inversion H; subst; clear H;
      (destruct (String.eqb_spec k "sales") as [->|N1];
       [|destruct (String.eqb_spec k "customers") as [->|N2];
         [|destruct (String.eqb_spec k "products") as [->|N3];
           [|destruct (String.eqb_spec k "sales_reps") as [->|N4]]]]);
      simpl; rewrite ?(proj2 (String.eqb_neq _ _)) by assumption;
      (split;
       [ first [ discriminate | intros [= <-]; eauto 10 ]
       | intros (file & [[Hk ->]|[[Hk ->]|[[Hk ->]|[Hk ->]]]] & Hr);
         try discriminate Hk; try congruence;
         apply read_csv_ok_exists in Hr; congruence ]).
  - four_files fs p; simpl in H; try discriminate; inversion H; subst; reflexivity.
Qed.

(** X3: when [extract_sales_data] raises, the exception is the one of
    [mkdir] on the data path, or the one [pd.read_csv] raised on the
    first file, in the order sales, customers, products, sales_reps,
    that exists and cannot be read; the files before it had been read. *)
Theorem extract_sales_data_first_error (p : string) (fs : FS) e fs' :
  extract_sales_data p fs = (Raise e, fs') →
  (mkdir p fs).1 = Raise e ∨
  ∃ before k after file,
    known_datasets = before ++ k :: after ∧
    source_file k = Some file ∧
    path_exists fs (path_join p file) = true ∧
    read_csv fs (path_join p file) = Raise e ∧
    ∀ k' file', k' ∈ before → source_file k' = Some file' →
                path_exists fs (path_join p file') = true →
                is_ok (read_csv fs (path_join p file')) = true.
Proof.
  unfold extract_sales_data, DataExtractor_init, extract_csv.
  destruct (mkdir p fs) as [[[]|e0] fs1] eqn:Hmk; simpl.
  2:{ intros [= <- <-]. by left. }
  rewrite !(path_exists_mkdir _ _ _ _ Hmk), !(read_csv_mkdir _ _ _ _ Hmk).
  intros H. right.
  four_files fs p; simpl in H; try discriminate; injection H as <- <-.
  all: first
    [ exists [], "sales", ["customers"; "products"; "sales_reps"], "sales_transactions.csv";
      repeat split; try assumption; before_ok
    | exists ["sales"], "customers", ["products"; "sales_reps"], "customers.csv";
      repeat split; try assumption; before_ok
    | exists ["sales"; "customers"], "products", ["sales_reps"], "products.csv";
      repeat split; try assumption; before_ok
    | exists ["sales"; "customers"; "products"], "sales_reps", [], "sales_reps.csv";
      repeat split; try assumption; before_ok ].
Qed.

(** X4: whatever it returns or raises, [extract_sales_data] removes
    and rewrites nothing on disk: what differs afterwards are
    directories, the data directory or directories above it, that were
    missing before; when they all exist nothing changes at all; and
    after a normal return they all exist. *)
Theorem extract_sales_data_footprint (p : string) (fs : FS) r fs' :
  extract_sales_data p fs = (r, fs') →
  refused fs' = refused fs ∧
  (∀ x, nodes fs' !! x = nodes fs !! x ∨
        (x ∈ path_chain p ∧ nodes fs !! x = None ∧ nodes fs' !! x = Some Dir)) ∧
  ((∀ q, q ∈ path_chain p → nodes fs !! q = Some Dir) → fs' = fs) ∧
  (is_ok r = true → ∀ q, q ∈ path_chain p → nodes fs' !! q = Some Dir).
Proof.
  intros H. destruct (extract_sales_data_frame _ _ _ _ H) as [Hr Hx].
  split; [exact Hr|]. split; [exact Hx|].
  apply extract_sales_data_mkdir in H as [-> Hok]. split.
  - intros Hall. unfold mkdir. by rewrite (make_dirs_dirs _ _ _ Hall).
  - intros Hr' q Hq. specialize (Hok Hr').
    destruct (mkdir p fs) as [r1 fs1] eqn:Hmk. cbn [fst snd] in *. subst r1.
    by apply (make_dirs_ok _ _ _ _ Hmk).
Qed.

(** X5: extraction can be repeated: run again on the file system it
    left behind, [extract_sales_data] gives the same result and leaves
    that file system as it is. *)
Theorem extract_sales_data_repeatable (p : string) (fs : FS) r fs' :
  extract_sales_data p fs = (r, fs') → extract_sales_data p fs' = (r, fs').
Proof.
  unfold extract_sales_data, DataExtractor_init. intros H.
  destruct (mkdir p fs) as [[[]|e] fs1] eqn:Hmk.
  - assert (fs' = fs1) as ->.
    { match type of H with
      | match ?b with _ => _ end = _ => destruct b; by inversion H
      end. }
    rewrite (mkdir_again _ _ _ _ Hmk). exact H.
  - injection H as <- <-. by rewrite (mkdir_again _ _ _ _ Hmk).
Qed.

(** X6: validating against two lists of required columns at once is
    validating against each: [validate_data] on the concatenation
    returns True exactly when it does on both lists. *)
Theorem validate_data_union (d : DataFrame) (cs1 cs2 : list string) :
  ∃ b1 b2 : bool,
    validate_data (Some d) (Some cs1) = (Ok b1, Some d) ∧
    validate_data (Some d) (Some cs2) = (Ok b2, Some d) ∧
    validate_data (Some d) (Some (cs1 ++ cs2)) = (Ok (b1 && b2), Some d).
Proof.
  assert (∀ cs, validate_data (Some d) (Some cs) =
                (Ok (negb (df_empty d) &&
                     forallb (fun c => bool_decide (c ∈ columns d)) cs), Some d)) as Hv.
  { intros cs.
    assert (forallb (fun c => bool_decide (c ∈ columns d)) cs = true ↔
            ∀ c, c ∈ cs → c ∈ columns d) as Hall.
    { rewrite forallb_forall. split.
      - intros H c Hc. apply list_elem_of_In in Hc.
        exact (proj1 (bool_decide_eq_true _) (H c Hc)).
      - intros H c Hc. apply (proj2 (bool_decide_eq_true _)), H. by apply list_elem_of_In. }
    unfold validate_data. destruct (df_empty d); [done|].
    destruct cs as [|c cs]; [done|].
    case_bool_decide as Hm.
    - destruct (forallb _ (c :: cs)) eqn:Hf; [|done].
      exfalso. apply Hm. apply (missing_columns_empty (c :: cs)). by apply Hall.
    - destruct (forallb _ (c :: cs)) eqn:Hf; [done|].
      pose proof (proj1 (missing_columns_empty (c :: cs) (columns d)) Hm) as Hm'.
      apply Hall in Hm'. congruence. }
  eexists _, _. rewrite !Hv. split; [done|]. split; [done|].
  rewrite forallb_app.
  destruct (df_empty d), (forallb _ cs1), (forallb _ cs2); reflexivity.
Qed.

(** ** The orchestrator, stage against stage *)

Lemma transform_not_loader (called : list string) ev :
  ev ∈ EvTransform <$> called → is_loader_call ev = false.
Proof. intros Hin. apply list_elem_of_fmap in Hin as (k & -> & _). reflexivity. Qed.

Lemma entered_stages_app evs1 evs2 :
  entered_stages (evs1 ++ evs2) = entered_stages evs1 ++ entered_stages evs2.
Proof. apply omap_app. Qed.

Lemma entered_stages_calls evs :
  Forall (fun ev => is_call ev = true) evs → entered_stages evs = [].
Proof.
  induction 1 as [|ev evs Hev _ IH]; [done|].
  unfold entered_stages in *. destruct ev; simpl in *; done.
Qed.

Lemma entered_stages_cons ev evs :
  entered_stages (ev :: evs) =
  match ev with EvEnter stage => [stage] | _ => [] end ++ entered_stages evs.
Proof. by destruct ev. Qed.

Lemma occurs_before_here x y evs : y ∈ evs → occurs_before x y (x :: evs).
Proof.
  intros Hin. apply list_elem_of_split in Hin as (l2 & l3 & ->).
  by exists [], l2, l3.
Qed.

Lemma occurs_before_cons x y z evs : occurs_before x y evs → occurs_before x y (z :: evs).
Proof. intros (l1 & l2 & l3 & ->). by exists (z :: l1), l2, l3. Qed.

Lemma occurs_before_app x y l evs : occurs_before x y evs → occurs_before x y (l ++ evs).
Proof.
  intros (l1 & l2 & l3 & ->). exists (l ++ l1), l2, l3. by rewrite <- app_assoc.
Qed.

Ltac solve_before :=
  first [ apply occurs_before_here; solve_in
        | apply occurs_before_cons; solve_before
        | apply occurs_before_app; solve_before ].

Section RunMore.
Context {Wh : Type} (E : Env Wh).

(** X11: when a stage raises during a run, [self.stats] afterwards has
    the entry of that stage as it was before the run with the status
    set to Failed, the stages before it with status Success, and the
    entries of the stages after it as they were before the run. *)
Theorem run_stats_after_failure p self (w : World Wh) stage e :
  EvStageFailed stage e ∈ events (run E p self w) →
  (∃ i, stage_entry (stats self) stage = Some i ∧
        stage_entry (stats (self_of (run E p self w))) stage =
          Some (with_status "Failed" i)) ∧
  (stage = "Extract" →
     transform (stats (self_of (run E p self w))) = transform (stats self) ∧
     load (stats (self_of (run E p self w))) = load (stats self)) ∧
  (stage = "Transform" →
     status (extract (stats (self_of (run E p self w)))) = "Success" ∧
     load (stats (self_of (run E p self w))) = load (stats self)) ∧
  (stage = "Load" →
     status (extract (stats (self_of (run E p self w)))) = "Success" ∧
     status (transform (stats (self_of (run E p self w)))) = "Success").
Proof.
  remember (run E p self w) as o eqn:Ho. intros Hin.
  destruct self as [name st0 stats0], w as [f0 w0 n].
  run_exec Ho; subst o; simpl in Hin |- *;
    repeat (rewrite <- app_assoc in Hin; simpl in Hin);
    repeat match goal with
           | H : load_all _ _ _ = _ |- _ => apply load_all_calls in H
           end;
    split_in Hin; try discriminate;
    try absurd_call Hin.
  all: inversion Hin; subst; clear Hin.
  all: (split; [eexists; split; reflexivity|]).
  all: repeat split; first [ reflexivity | discriminate ].
Qed.

(** X12: a run removes and rewrites nothing on disk: what differs
    afterwards are directories on the way to the data path that were
    missing; and it calls no loader unless the Load stage is entered:
    a run that fails in Extract or Transform hands nothing to
    [load_dimension_tables] or [load_fact_sales]. *)
Theorem run_calls_no_loader_before_load p self (w : World Wh) :
  (refused (fs (world_of (run E p self w))) = refused (fs w) ∧
   ∀ x, nodes (fs (world_of (run E p self w))) !! x = nodes (fs w) !! x ∨
        (x ∈ path_chain p ∧ nodes (fs w) !! x = None ∧
         nodes (fs (world_of (run E p self w))) !! x = Some Dir)) ∧
  (¬ entered "Load" (events (run E p self w)) →
     ∀ ev, ev ∈ events (run E p self w) → is_loader_call ev = false).
Proof.
  remember (run E p self w) as o eqn:Ho. unfold entered.
  destruct self as [name st0 stats0], w as [f0 w0 n].
  run_exec Ho; subst o; simpl;
    repeat (rewrite <- app_assoc; simpl);
    repeat match goal with
           | H : extract_sales_data _ _ = _ |- _ => apply extract_sales_data_frame in H
           end.
  all: (split; [first [assumption | split; [reflexivity|intros x; by left]]|]).
  all: intros Hn.
  all: try (exfalso; apply Hn; solve_in).
  all: intros ev Hev; split_in Hev; subst; try reflexivity;
       eapply transform_not_loader; eassumption.
Qed.

(** X13: the stages of a run are entered in the order Extract,
    Transform, Load, each at most once and none skipped; Transform is
    entered only after the Success record of Extract was written, and
    Load only after the Success record of Transform. *)
Theorem run_stages_in_order p self (w : World Wh) :
  entered_stages (events (run E p self w)) `prefix_of` ["Extract"; "Transform"; "Load"] ∧
  (entered "Transform" (events (run E p self w)) →
     ∃ a t, a_stage a = "Extract" ∧ a_status a = "Success" ∧
            occurs_before (EvEnter "Extract") (EvAudit a t) (events (run E p self w)) ∧
            occurs_before (EvAudit a t) (EvEnter "Transform") (events (run E p self w))) ∧
  (entered "Load" (events (run E p self w)) →
     ∃ a t, a_stage a = "Transform" ∧ a_status a = "Success" ∧
            occurs_before (EvEnter "Transform") (EvAudit a t) (events (run E p self w)) ∧
            occurs_before (EvAudit a t) (EvEnter "Load") (events (run E p self w))).
Proof.
  remember (run E p self w) as o eqn:Ho. unfold entered.
  destruct self as [name st0 stats0], w as [f0 w0 n].
  run_exec Ho; subst o; simpl;
    repeat (rewrite <- app_assoc; simpl);
    repeat match goal with
           | H : load_all _ _ _ = _ |- _ => apply load_all_calls in H
           | H : audit_fault _ _ = _ |- _ => clear H
           end.
  all: split;
    [ repeat first
        [ rewrite entered_stages_cons
        | rewrite entered_stages_app
        | rewrite entered_stages_calls by first [assumption | apply transform_calls] ];
      cbn; by eexists |].
  all: split; intros Hin.
  all: first
    [ solve [exfalso; split_in Hin; try discriminate; absurd_call Hin]
    | solve [eexists _, _; (split; [|split; [|split]]);
             [ | | solve_before | solve_before ]; reflexivity] ].
Qed.

(** X14: every audit record of a run carries the name of the
    pipeline; a Success record carries the record count that
    [self.stats] holds for its stage at the end of the run, and that
    stage has status Success there; Started and Failed records carry no
    record count. *)
Theorem run_records_match_stats p self (w : World Wh) a t :
  EvAudit a t ∈ events (run E p self w) →
  a_pipeline a = pipeline_name self ∧
  (a_status a = "Success" →
     ∃ i, stage_entry (stats (self_of (run E p self w))) (a_stage a) = Some i ∧
          status i = "Success" ∧ a_records a = Some (records i)) ∧
  (a_status a ≠ "Success" → a_records a = None).
Proof.
  remember (run E p self w) as o eqn:Ho. intros Hin.
  destruct self as [name st0 stats0], w as [f0 w0 n].
  run_exec Ho; subst o; simpl in Hin |- *;
    repeat (rewrite <- app_assoc in Hin; simpl in Hin).
  all: repeat match goal with
           | H : load_all _ _ _ = _ |- _ => apply load_all_calls in H
           | H : audit_fault _ _ = _ |- _ => clear H
           end.
  all: split_in Hin; try discriminate; try absurd_call Hin.
  all: injection Hin as -> ->; cbn [a_pipeline a_status a_stage a_records].
  all: (split; [reflexivity|]).
  all: split; [ first [ discriminate | intros _; eexists; repeat split; reflexivity ]
              | first [ reflexivity | congruence ] ].
Qed.
End RunMore.

(** ** The command-line entry points *)

Lemma pipeline_module_body_ok fs :
  logs_ready fs = true →
  ∃ fs1, pipeline_module_body fs = (Ok tt, fs1) ∧ mkdir "logs" fs1 = (Ok tt, fs1).
Proof.
  unfold logs_ready, pipeline_module_body, open_append.
  destruct (nodes fs !! "logs") as [[|r0]|] eqn:Hd; try discriminate.
  destruct (nodes fs !! path_join "logs" "etl_pipeline.log") as [[|r]|] eqn:Hl;
    [discriminate|intros _..].
  - eexists. split; [reflexivity|]. apply make_dirs_dirs. intros q Hq.
    apply list_elem_of_singleton in Hq as ->. exact Hd.
  - eexists. split; [reflexivity|]. apply make_dirs_dirs. intros q Hq.
    apply list_elem_of_singleton in Hq as ->. simpl.
    rewrite lookup_insert_ne by (vm_compute; discriminate). exact Hd.
Qed.

Lemma pipeline_module_body_fails fs :
  logs_ready fs = false → ∃ e, pipeline_module_body fs = (Raise e, fs).
Proof.
  unfold logs_ready, pipeline_module_body, open_append.
  destruct (nodes fs !! "logs") as [[|r]|] eqn:Hd; [|by eexists..].
  destruct (nodes fs !! path_join "logs" "etl_pipeline.log") as [[|r]|] eqn:Hl;
    [by eexists|discriminate..].
Qed.

Lemma with_fs_same {Wh} (w : World Wh) : with_fs (fs w) w = w.
Proof. by destruct w. Qed.

Section EntryMore.
Context {Wh : Type} (E : Env Wh).

Lemma run_events_nonempty p self (w : World Wh) : events (run E p self w) ≠ [].
Proof.
  remember (run E p self w) as o eqn:Ho.
  destruct self as [name st0 stats0], w as [f0 w0 n].
  run_exec Ho; subst o; simpl; discriminate.
Qed.

Lemma run_stage_failed_not_ok p self (w : World Wh) stage e :
  EvStageFailed stage e ∈ events (run E p self w) →
  is_ok (result (run E p self w)) = false.
Proof.
  remember (run E p self w) as o eqn:Ho. intros Hin.
  destruct self as [name st0 stats0], w as [f0 w0 n].
  run_exec Ho; subst o; simpl in Hin |- *; try reflexivity;
    repeat (rewrite <- app_assoc in Hin; simpl in Hin);
    repeat match goal with
           | H : load_all _ _ _ = _ |- _ => apply load_all_calls in H
           end;
    split_in Hin; try discriminate; absurd_call Hin.
Qed.



End EntryMore.

(** ** scripts/setup_database.py *)

(** *** Text *)

Lemma split_nonempty sep s : split sep s ≠ [].
Proof.
  destruct s as [|c s']; simpl; [done|].
  destruct (Ascii.eqb c sep); [done|]. by destruct (split sep s').
Qed.

Lemma split_pieces sep s piece :
  piece ∈ split sep s → sep ∉ String.list_ascii_of_string piece.
Proof.
  revert piece. induction s as [|c s' IH]; intros piece; simpl.
  - intros Hin. apply list_elem_of_singleton in Hin as ->. simpl. apply not_elem_of_nil.
  - destruct (Ascii.eqb_spec c sep) as [->|Hne].
    + intros Hin. apply elem_of_cons in Hin as [->|Hin]; [apply not_elem_of_nil|by apply IH].
    + destruct (split sep s') as [|piece0 pieces] eqn:Hs.
      * by destruct (split_nonempty sep s').
      * intros Hin. apply elem_of_cons in Hin as [->|Hin].
        -- simpl. intros Hc. apply elem_of_cons in Hc as [->|Hc]; [done|].
           by apply (IH piece0); [left|].
        -- apply IH. by right.
Qed.

Lemma lstrip_chars s c : c ∈ String.list_ascii_of_string (lstrip s) → c ∈ String.list_ascii_of_string s.
Proof.
  induction s as [|a s' IH]; simpl; [done|].
  destruct (is_space a); [|done]. intros Hin. right. by apply IH.
Qed.

Lemma rstrip_chars s c : c ∈ String.list_ascii_of_string (rstrip s) → c ∈ String.list_ascii_of_string s.
Proof.
  induction s as [|a s' IH]; simpl; [done|].
  destruct (rstrip s') as [|b r] eqn:Hr.
  - destruct (is_space a); simpl.
    + intros Hin. by apply elem_of_nil in Hin.
    + intros Hin. apply list_elem_of_singleton in Hin as ->. by left.
  - simpl. intros Hin. apply elem_of_cons in Hin as [->|Hin]; [by left|].
    right. by apply IH.
Qed.

Lemma strip_chars s c : c ∈ String.list_ascii_of_string (strip s) → c ∈ String.list_ascii_of_string s.
Proof. intros Hin. by apply lstrip_chars, rstrip_chars. Qed.

Lemma contains_char c s :
  contains (String c EmptyString) s = false ↔ c ∉ String.list_ascii_of_string s.
Proof.
  induction s as [|a s' IH]; simpl.
  - split; [intros _; apply not_elem_of_nil|done].
  - destruct (ascii_dec c a) as [->|Hne].
    + destruct s'; simpl; (split; [done|]); intros Hn; exfalso; apply Hn; by left.
    + simpl. rewrite IH. split.
      * intros Hn Hin. apply elem_of_cons in Hin as [->|Hin]; done.
      * intros Hn Hin. apply Hn. by right.
Qed.

Lemma lstrip_head s c r : lstrip s = String c r → is_space c = false.
Proof.
  induction s as [|a s' IH]; simpl; [done|].
  destruct (is_space a) eqn:Ha; [done|]. by intros [= <- <-].
Qed.

Lemma rstrip_head c s : is_space c = false → rstrip (String c s) = String c (rstrip s).
Proof. intros Hc. simpl. destruct (rstrip s); by rewrite ?Hc. Qed.

Lemma rstrip_rstrip s : rstrip (rstrip s) = rstrip s.
Proof.
  induction s as [|a s' IH]; simpl; [done|].
  destruct (rstrip s') as [|b r] eqn:Hr.
  - destruct (is_space a) eqn:Ha; simpl; [done|]. by rewrite Ha.
  - change (rstrip (String a (String b r))) with
      (match rstrip (String b r) with
       | EmptyString => if is_space a then EmptyString else String a EmptyString
       | r' => String a r'
       end).
    by rewrite IH.
Qed.

Lemma strip_strip s : strip (strip s) = strip s.
Proof.
  unfold strip. destruct (lstrip s) as [|c r] eqn:Hl; [done|].
  pose proof (lstrip_head _ _ _ Hl) as Hc.
  rewrite (rstrip_head _ _ Hc). simpl lstrip. rewrite Hc.
  rewrite <- (rstrip_head _ _ Hc). apply rstrip_rstrip.
Qed.

(** *** The loop *)

Lemma executed_app evs1 evs2 : executed (evs1 ++ evs2) = executed evs1 ++ executed evs2.
Proof. apply omap_app. Qed.

Section SqlLemmas.
Context {DB : Type} (S : Sql DB).

Lemma executed_warn msg : executed (warn msg) = [].
Proof. unfold warn. by destruct (negb _). Qed.

Lemma of_loop_warn c msg : Forall (fun ev => of_loop c ev = true) (warn msg).
Proof. unfold warn. destruct (negb _); repeat constructor. Qed.

Lemma execute_statement_executed c segment db :
  executed (execute_statement S c segment db).2 =
  List.filter is_statement [strip segment].
Proof.
  unfold execute_statement, is_statement. cbv zeta.
  destruct (strip segment) as [|a r] eqn:Hs; [done|].
  cbn [List.filter String.eqb negb andb].
  destruct (startswith "--" (String a r)); cbn [negb andb]; [done|].
  destruct (sql_execute S c (String a r) db) as [[msg|] db1].
  - cbn. by rewrite executed_warn.
  - destruct (sql_commit S c db1) as [[msg|] db2]; cbn; by rewrite ?executed_warn.
Qed.

Lemma execute_statement_events c segment db :
  Forall (fun ev => of_loop c ev = true) (execute_statement S c segment db).2.
Proof.
  unfold execute_statement. cbv zeta.
  destruct (strip segment) as [|a r] eqn:Hs; [constructor|].
  destruct (negb (startswith "--" (String a r))); [|constructor].
  destruct (sql_execute S c (String a r) db) as [[msg|] db1].
  - constructor; [apply Nat.eqb_refl|apply of_loop_warn].
  - destruct (sql_commit S c db1) as [[msg|] db2]; simpl;
      repeat (constructor; [apply Nat.eqb_refl|]); first [apply of_loop_warn | constructor].
Qed.

Lemma execute_statements_executed c segments db :
  executed (execute_statements S c segments db).2 =
  List.filter is_statement (strip <$> segments).
Proof.
  revert db. induction segments as [|segment rest IH]; intros db; [done|].
  simpl execute_statements.
  pose proof (execute_statement_executed c segment db) as H1.
  destruct (execute_statement S c segment db) as [db1 evs1].
  specialize (IH db1).
  destruct (execute_statements S c rest db1) as [db2 evs2].
  simpl in *. rewrite executed_app, H1, IH.
  by destruct (is_statement (strip segment)).
Qed.

Lemma execute_statements_events c segments db :
  Forall (fun ev => of_loop c ev = true) (execute_statements S c segments db).2.
Proof.
  revert db. induction segments as [|segment rest IH]; intros db; [constructor|].
  simpl execute_statements.
  pose proof (execute_statement_events c segment db) as H1.
  destruct (execute_statement S c segment db) as [db1 evs1].
  specialize (IH db1).
  destruct (execute_statements S c rest db1) as [db2 evs2].
  simpl in *. by apply Forall_app.
Qed.

Lemma executed_loop c evs :
  Forall (fun ev => of_loop c ev = true) evs →
  ∀ c' s, SqlExecuted c' s ∈ evs → c' = c.
Proof.
  intros Hall c' s Hin. rewrite Forall_forall in Hall.
  specialize (Hall _ Hin). simpl in Hall. by apply Nat.eqb_eq.
Qed.

(** The course of [execute_sql_file]: it ends for want of a
    connection, or for want of a cursor or of the text, or it runs the
    loop to its end and goes through the closing steps. *)
Lemma execute_sql_file_course filepath connection db :
  (∃ e, connection_used S connection db = Raise e ∧
        execute_sql_file S filepath connection db =
          (Raise e, connected_db S connection db, [])) ∨
  ∃ c, connection_used S connection db = Ok c ∧
    ((∃ e, (sql_cursor S c (connected_db S connection db) = Some e ∨
            sql_cursor S c (connected_db S connection db) = None ∧
            read_text S filepath = Raise e) ∧
           execute_sql_file S filepath connection db =
             (Raise e, connected_db S connection db,
              match connection with None => [SqlConnected c] | Some _ => [] end)) ∨
     ∃ content db1 loop,
       sql_cursor S c (connected_db S connection db) = None ∧
       read_text S filepath = Ok content ∧
       execute_statements S c (split ";"%char content) (connected_db S connection db) =
         (db1, loop) ∧
       match sql_cursor_close S c db1 with
       | Some e =>
           closing_error S filepath connection c db1 = Some e ∧
           execute_sql_file S filepath connection db =
             (Raise e, db1,
              match connection with None => [SqlConnected c] | Some _ => [] end ++ loop)
       | None =>
           match closing_error S filepath connection c db1 with
           | Some e =>
               execute_sql_file S filepath connection db =
                 (Raise e,
                  match connection with None => (sql_close S c db1).2 | Some _ => db1 end,
                  match connection with None => [SqlConnected c] | Some _ => [] end ++
                  loop ++ match connection with None => [SqlClosed c] | Some _ => [] end)
           | None =>
               execute_sql_file S filepath connection db =
                 (Ok tt,
                  match connection with None => (sql_close S c db1).2 | Some _ => db1 end,
                  match connection with None => [SqlConnected c] | Some _ => [] end ++
                  loop ++ match connection with None => [SqlClosed c] | Some _ => [] end ++
                  [SqlDone filepath])
           end
       end).
Proof.
  unfold execute_sql_file, connection_used, connected_db, closing_error.
  destruct connection as [c0|].
  - right. exists c0. split; [done|].
    destruct (sql_cursor S c0 db) as [e|] eqn:Hcur; [left; exists e; by split; [left|]|].
    destruct (read_text S filepath) as [content|e] eqn:Hread;
      [|left; exists e; by split; [right|]].
    right.
    destruct (execute_statements S c0 (split ";"%char content) db) as [db1 loop] eqn:Hx.
    exists content, db1, loop. repeat (split; [done|]).
    destruct (sql_cursor_close S c0 db1) as [e|]; [done|].
    by destruct (print_executed S filepath) as [e|].
  - destruct (sql_connect S db) as [[c0|e] db0] eqn:Hconn; cbn [fst snd].
    2:{ left. by exists e. }
    right. exists c0. split; [done|].
    destruct (sql_cursor S c0 db0) as [e|] eqn:Hcur; [left; exists e; by split; [left|]|].
    destruct (read_text S filepath) as [content|e] eqn:Hread;
      [|left; exists e; by split; [right|]].
    right.
    destruct (execute_statements S c0 (split ";"%char content) db0) as [db1 loop] eqn:Hx.
    exists content, db1, loop. repeat (split; [done|]).
    destruct (sql_cursor_close S c0 db1) as [e|]; [done|].
    destruct (sql_close S c0 db1) as [[e|] db2]; cbn [fst snd]; [done|].
    by destruct (print_executed S filepath) as [e|].
Qed.

Lemma executed_frame (connection : option nat) c loop (tail : list SqlEvent) :
  executed tail = [] →
  executed (match connection with None => [SqlConnected c] | Some _ => [] end ++
            loop ++ tail) = executed loop.
Proof.
  intros Ht. rewrite !executed_app, Ht, app_nil_r. by destruct connection.
Qed.

(** What is sent is what the loop sends. *)
Lemma execute_sql_file_sent filepath connection db :
  executed (execute_sql_file S filepath connection db).2 = [] ∨
  ∃ c content,
    connection_used S connection db = Ok c ∧
    read_text S filepath = Ok content ∧
    executed (execute_sql_file S filepath connection db).2 =
      List.filter is_statement (strip <$> split ";"%char content) ∧
    ∀ c' s, SqlExecuted c' s ∈ (execute_sql_file S filepath connection db).2 → c' = c.
Proof.
  destruct (execute_sql_file_course filepath connection db)
    as [(e & _ & ->)|(c & Hc & [(e & _ & ->)|(content & db1 & loop & _ & Hread & Hx & H)])].
  - by left.
  - left. by destruct connection.
  - right. exists c, content. split; [done|]. split; [done|].
    pose proof (execute_statements_executed c (split ";"%char content)
                  (connected_db S connection db)) as He.
    pose proof (execute_statements_events c (split ";"%char content)
                  (connected_db S connection db)) as Hl.
    rewrite Hx in He, Hl. cbn [snd] in He, Hl.
    assert (∀ tail : list SqlEvent,
              executed tail = [] → (∀ c' s, SqlExecuted c' s ∉ tail) →
              executed (match connection with None => [SqlConnected c] | Some _ => [] end ++
                        loop ++ tail) =
                List.filter is_statement (strip <$> split ";"%char content) ∧
              ∀ c' s, SqlExecuted c' s ∈
                        match connection with None => [SqlConnected c] | Some _ => [] end ++
                        loop ++ tail → c' = c) as Hgen.
    { intros tail Ht Hno. split; [by rewrite executed_frame, He|].
      intros c' s Hin. apply elem_of_app in Hin as [Hin|Hin].
      - destruct connection; [by apply elem_of_nil in Hin|].
        apply list_elem_of_singleton in Hin. discriminate.
      - apply elem_of_app in Hin as [Hin|Hin]; [by apply (executed_loop _ _ Hl c' s)|].
        by apply Hno in Hin. }
    assert (∀ (tail : list SqlEvent) c' s,
              Forall (fun ev => match ev with SqlExecuted _ _ => False | _ => True end) tail →
              SqlExecuted c' s ∉ tail) as Hnone.
    { intros tail c' s Hall Hin. rewrite Forall_forall in Hall. by apply (Hall _ Hin). }
    destruct (sql_cursor_close S c db1) as [e|].
    + destruct H as [_ ->]. cbn [snd].
      rewrite <- (app_nil_r loop). apply Hgen; [done|]. intros c' s. apply not_elem_of_nil.
    + destruct (closing_error S filepath connection c db1) as [e|]; rewrite H; cbn [snd].
      * apply Hgen; [by destruct connection|].
        intros c' s. apply Hnone. destruct connection; repeat constructor.
      * apply Hgen; [by destruct connection|].
        intros c' s. apply Hnone. destruct connection; repeat constructor.
Qed.

End SqlLemmas.

Section SqlMore.
Context {DB : Type} (S : Sql DB).

(** X19: every statement [execute_sql_file] sends is a stripped piece
    of the file's text: it is not empty, does not begin with [--],
    contains no semicolon and has no white space at either end. *)
Theorem executed_statements_are_clean filepath connection db s :
  s ∈ executed (execute_sql_file S filepath connection db).2 →
  s ≠ EmptyString ∧
  startswith "--" s = false ∧
  contains ";" s = false ∧
  strip s = s ∧
  ∃ content segment,
    read_text S filepath = Ok content ∧
    segment ∈ split ";"%char content ∧ s = strip segment.
Proof.
  intros Hin.
  destruct (execute_sql_file_sent S filepath connection db)
    as [Hnil|(c & content & _ & Hread & He & _)].
  { rewrite Hnil in Hin. by apply elem_of_nil in Hin. }
  rewrite He in Hin.
  apply list_elem_of_In, filter_In in Hin as [Hin Hst].
  apply list_elem_of_In, list_elem_of_fmap in Hin as (segment & -> & Hseg).
  unfold is_statement in Hst. apply andb_true_iff in Hst as [Hne Hcom].
  split; [intros Heq; by rewrite Heq in Hne|].
  split; [by destruct (startswith "--" (strip segment))|].
  split; [|split; [apply strip_strip|by exists content, segment]].
  apply contains_char. intros Hc. apply strip_chars in Hc.
  by apply (split_pieces _ _ _ Hseg).
Qed.

(** X20: [execute_sql_file] closes what it opened and nothing else: on
    a connection passed in it neither connects nor closes; without one,
    a call that returns has connected first and closed that connection
    last, before the closing message, and everything between is the
    loop's work on that connection. *)
Theorem execute_sql_file_connection_ownership filepath connection db :
  (∀ c c', connection = Some c →
     (SqlConnected c' ∉ (execute_sql_file S filepath connection db).2) ∧
     (SqlClosed c' ∉ (execute_sql_file S filepath connection db).2)) ∧
  (connection = None →
   is_ok (execute_sql_file S filepath connection db).1.1 = true →
   ∃ c db0 db1 loop,
     sql_connect S db = (Ok c, db0) ∧
     (execute_sql_file S filepath connection db).1.2 = (sql_close S c db1).2 ∧
     (execute_sql_file S filepath connection db).2 =
       SqlConnected c :: loop ++ [SqlClosed c; SqlDone filepath] ∧
     Forall (fun ev => of_loop c ev = true) loop).
Proof.
  split.
  - intros c0 c' ->.
    assert (∀ (loop tail : list SqlEvent),
              Forall (fun ev => of_loop c0 ev = true) loop →
              tail = [] ∨ tail = [SqlDone filepath] →
              (SqlConnected c' ∉ [] ++ loop ++ [] ++ tail) ∧
              (SqlClosed c' ∉ [] ++ loop ++ [] ++ tail)) as Hgen.
    { intros loop tail Hl Ht. rewrite Forall_forall in Hl.
      split; intros Hin; cbn [app] in Hin; apply elem_of_app in Hin as [Hin|Hin];
        try (by specialize (Hl _ Hin));
        destruct Ht as [->| ->];
        first [ by apply elem_of_nil in Hin
              | apply list_elem_of_singleton in Hin; discriminate ]. }
    destruct (execute_sql_file_course S filepath (Some c0) db)
      as [(e & _ & ->)|(c & Hc & [(e & _ & ->)|(content & db1 & loop & _ & _ & Hx & H)])];
      [split; apply not_elem_of_nil..|].
    injection Hc as <-.
    pose proof (execute_statements_events S c0 (split ";"%char content)
                  (connected_db S (Some c0) db)) as Hl.
    rewrite Hx in Hl. cbn [snd] in Hl.
    destruct (sql_cursor_close S c0 db1) as [e|].
    + destruct H as [_ ->]. cbn [snd].
      destruct (Hgen loop [] Hl (or_introl eq_refl)) as [H1 H2].
      cbn [app] in H1, H2 |- *. rewrite !app_nil_r in H1, H2. by split.
    + destruct (closing_error S filepath (Some c0) c0 db1) as [e|]; rewrite H; cbn [snd].
      * destruct (Hgen loop [] Hl (or_introl eq_refl)) as [H1 H2].
        cbn [app] in H1, H2 |- *. by split.
      * by apply (Hgen loop [SqlDone filepath] Hl (or_intror eq_refl)).
  - intros -> Hok.
    destruct (execute_sql_file_course S filepath None db)
      as [(e & _ & Heq)|(c & Hc & [(e & _ & Heq)|(content & db1 & loop & _ & _ & Hx & H)])];
      [by rewrite Heq in Hok..|].
    pose proof (execute_statements_events S c (split ";"%char content)
                  (connected_db S None db)) as Hl.
    rewrite Hx in Hl. cbn [snd] in Hl.
    unfold connection_used in Hc.
    destruct (sql_connect S db) as [r db0] eqn:Hconn. cbn [fst] in Hc. subst r.
    destruct (sql_cursor_close S c db1) as [e|].
    { destruct H as [_ Heq]. by rewrite Heq in Hok. }
    destruct (closing_error S filepath None c db1) as [e|].
    { by rewrite H in Hok. }
    exists c, db0, db1, loop. rewrite H. by repeat split.
Qed.

End SqlMore.

(** ** Concrete runs of the further properties *)

Module ConcreteMore.
Import Sample Fixtures.

(** [mkdir] below a regular file, and at one. *)
Lemma mkdir_below_a_file :
  mkdir "data/raw" data_is_file =
    (Raise (Exn "NotADirectoryError" "[Errno 20] Not a directory: 'data/raw'" None),
     data_is_file).
Proof. vm_compute. reflexivity. Qed.

Lemma mkdir_at_a_file :
  mkdir "data/raw" path_is_file =
    (Raise (Exn "FileExistsError" "[Errno 17] File exists: 'data/raw'" None),
     path_is_file).
Proof. vm_compute. reflexivity. Qed.

(** Extraction over a directory holding two of the four files. *)
Lemma extract_sales_data_values_witness :
  dict_keys partial =
    List.filter (fun k => match source_file k with
                          | Some file => path_exists some_files (path_join "data/raw" file)
                          | None => false
                          end) known_datasets.
Proof.
  apply (extract_sales_data_values "data/raw" some_files partial some_files).
  vm_compute. reflexivity.
Defined.

(** The customers file cannot be parsed: extraction raises the parser's
    error. *)
Lemma extract_sales_data_first_error_witness :
  (mkdir "data/raw" broken_customers).1 =
    Raise (Exn "ParserError" "Error tokenizing data" None) ∨
  ∃ before k after file,
    known_datasets = before ++ k :: after ∧
    source_file k = Some file ∧
    path_exists broken_customers (path_join "data/raw" file) = true ∧
    read_csv broken_customers (path_join "data/raw" file) =
      Raise (Exn "ParserError" "Error tokenizing data" None) ∧
    ∀ k' file', k' ∈ before → source_file k' = Some file' →
                path_exists broken_customers (path_join "data/raw" file') = true →
                is_ok (read_csv broken_customers (path_join "data/raw" file')) = true.
Proof.
  apply (extract_sales_data_first_error "data/raw" broken_customers
           (Exn "ParserError" "Error tokenizing data" None) broken_customers).
  vm_compute. reflexivity.
Defined.

(** Extraction over an empty disk makes [data] and [data/raw]. *)
Lemma extract_sales_data_footprint_witness :
  nodes (mkFS (<["data/raw" := Dir]> (<["data" := Dir]> ∅)) allowed) !! "data" = Some Dir.
Proof.
  destruct (extract_sales_data_footprint "data/raw" (no_files true) (Ok [])
              (mkFS (<["data/raw" := Dir]> (<["data" := Dir]> ∅)) allowed))
    as (_ & _ & _ & H).
  - vm_compute. reflexivity.
  - apply H; [reflexivity|]. apply list_elem_of_In. vm_compute. left. reflexivity.
Defined.

(** A second extraction over what the first one left. *)
Lemma extract_sales_data_repeatable_witness :
  extract_sales_data "data/raw" (mkFS (<["data/raw" := Dir]> (<["data" := Dir]> ∅)) allowed) =
    (Ok [], mkFS (<["data/raw" := Dir]> (<["data" := Dir]> ∅)) allowed).
Proof.
  apply (extract_sales_data_repeatable "data/raw" (no_files true)).
  vm_compute. reflexivity.
Defined.

(** Transforming sales and customers with adapters that keep their input. *)
Lemma _transform_values_witness :
  transform (stats (self_of (_transform env_ok partial fresh (world (no_files true))))) =
    mkStage "Success" (total_len partial) (Some (dict_keys partial)).
Proof.
  destruct (_transform_values env_ok partial fresh (world (no_files true)) partial)
    as (_ & H & _).
  - vm_compute. reflexivity.
  - exact H.
Defined.

(** The customers adapter rejects its input: sales was transformed,
    products and sales_reps are not reached. *)
Lemma _transform_stops_at_first_failure_witness :
  ∃ called name rest,
    present known_datasets transformed = called ++ name :: rest ∧
    events (_transform env_bad_customers transformed fresh (world all_files)) =
      EvEnter "Transform" :: (EvTransform <$> (called ++ [name]))
        ++ [EvStageFailed "Transform"
              (Exn "ValidationError" "required fields absent" None)].
Proof.
  destruct (_transform_stops_at_first_failure env_bad_customers transformed fresh
              (world all_files) (Exn "ValidationError" "required fields absent" None))
    as (called & name & rest & f & df & H1 & _ & _ & _ & _ & H2 & _).
  - vm_compute. reflexivity.
  - exists called, name, rest. split; [exact H1 | exact H2].
Defined.

(** Loading all four datasets into the sample warehouse. *)
Lemma _load_results_witness :
  ∃ lr, load (stats (self_of (_load env_ok transformed fresh (world all_files)))) =
          mkStage "Success" (sum (dict_values lr)) (Some (dict_keys lr)).
Proof.
  assert ({lr | result (_load env_ok transformed fresh (world all_files)) = Ok lr})
    as [lr Hlr].
  { eexists. vm_compute. reflexivity. }
  destruct (_load_results env_ok transformed fresh (world all_files) lr Hlr)
    as (dr & w1 & _ & _ & H).
  exists lr. exact H.
Defined.

(** The fact loader fails after the dimensions were loaded: the
    customer C1 is in the warehouse nonetheless. *)
Lemma _load_failure_is_not_undone_witness :
  status (load (stats (self_of (_load env_fact_fails transformed fresh (world all_files))))) =
    "Failed" ∧
  Warehouse.known (wh (world_of (_load env_fact_fails transformed fresh (world all_files))))
    "customers" "C1".
Proof.
  destruct (_load_failure_is_not_undone env_fact_fails transformed fresh (world all_files)
              (Exn "IntegrityError" "foreign key constraint fails" None)) as [H _].
  - vm_compute. reflexivity.
  - split; [rewrite H; reflexivity|]. vm_compute. eexists. reflexivity.
Defined.

(** A run in which the customers adapter rejects its input. *)
Lemma run_stats_after_failure_witness :
  status (extract (stats (self_of
    (run env_bad_customers "data/raw" fresh (world all_files))))) = "Success" ∧
  load (stats (self_of (run env_bad_customers "data/raw" fresh (world all_files)))) =
    load (stats fresh).
Proof.
  destruct (run_stats_after_failure env_bad_customers "data/raw" fresh (world all_files)
              "Transform" (Exn "ValidationError" "required fields absent" None))
    as (_ & _ & H & _).
  - in_by_compute.
  - exact (H eq_refl).
Defined.

(** That run never enters Load: the fact loader is not called. *)
Lemma run_calls_no_loader_before_load_witness :
  EvLoadFact ∉ events (run env_bad_customers "data/raw" fresh (world all_files)).
Proof.
  destruct (run_calls_no_loader_before_load env_bad_customers "data/raw" fresh
              (world all_files)) as [_ H].
  intros Hin. apply H in Hin.
  - discriminate Hin.
  - intros Hl. unfold entered in Hl. not_in_by_compute Hl.
Defined.

(** A full run: Load is entered after the Success record of Transform. *)
Lemma run_stages_in_order_witness :
  ∃ a t, a_stage a = "Transform" ∧ a_status a = "Success" ∧
         occurs_before (EvAudit a t) (EvEnter "Load")
           (events (run env_ok "data/raw" fresh (world all_files))).
Proof.
  destruct (run_stages_in_order env_ok "data/raw" fresh (world all_files))
    as (_ & _ & H).
  destruct H as (a & t & H1 & H2 & _ & H3).
  - unfold entered. in_by_compute.
  - exists a, t. split; [exact H1|]. split; [exact H2 | exact H3].
Defined.

(** The Failed record of the failing run carries no record count. *)
Lemma run_records_match_stats_witness :
  a_records (mkAudit "sales_analytics_etl" "Transform" "Failed" None
               (Some "required fields absent") (Some 0%Z) (Some 50%Z)) = None.
Proof.
  destruct (run_records_match_stats env_bad_customers "data/raw" fresh (world all_files)
              (mkAudit "sales_analytics_etl" "Transform" "Failed" None
                 (Some "required fields absent") (Some 0%Z) (Some 50%Z)) 50%Z)
    as (_ & _ & H).
  - in_by_compute.
  - apply H. discriminate.
Defined.





Lemma executed_statements_are_clean_witness :
  strip "CREATE TABLE fact_sales (order_number INT)" =
    "CREATE TABLE fact_sales (order_number INT)".
Proof.
  destruct (executed_statements_are_clean sql_server "database/schema.sql" None []
              "CREATE TABLE fact_sales (order_number INT)") as (_ & _ & _ & H & _).
  - apply list_elem_of_In. vm_compute. right. left. reflexivity.
  - exact H.
Defined.

(** On a connection passed in, nothing is opened or closed. *)
Lemma execute_sql_file_connection_ownership_witness :
  SqlClosed 3 ∉ (execute_sql_file sql_server "database/schema.sql" (Some 3%nat) []).2.
Proof.
  destruct (execute_sql_file_connection_ownership sql_server "database/schema.sql"
              (Some 3%nat) []) as [H _].
  exact (proj2 (H 3%nat 3%nat eq_refl)).
Defined.

End ConcreteMore.
